(** * imhotep_tasks: the task views of [tasks/main/task_managment.py]

    A shallow embedding of the Django REST views of the task backend
    (list views, create, update, delete and toggle, single and bulk) over an
    explicit model of the task table, and the properties of the
    specification proved about them.

    Conventions.
    - A calendar date is a day number ([Z]); a [DateTimeField] value is a
      number of seconds ([Z]) and the [__date] lookup is [date_of] (the
      time-zone conversion Django applies to it is not modelled).
    - The table is the list of its rows in insertion order; a [QuerySet] is
      the list of rows it evaluates to.
    - A view body runs in the monad [M]: the table is threaded through, and a
      raised Python exception is a value of [Exn] returned together with the
      table as it was when the exception was raised (Django's autocommit).
    - What is imported by the views but defined outside these two files
      (the serializer, the date parser, the routine rules, ...) is collected
      in the class [Externals]. *)

From stdpp Require Import base strings gmap list sorting.
From Stdlib Require Import ZArith Lia.

Local Open Scope Z_scope.

(** ** Python values and requests *)

(** The values a decoded JSON body can hold ([request.data] is a [dict]). *)
#[warnings="-register-all"]
Inductive Val :=
| VNone
| VBool (b : bool)
| VInt (n : Z)
| VStr (s : string)
| VList (l : list Val).

(** [d.get(key, default)]. *)
Definition get (d : gmap string Val) (key : string) (default : Val) : Val :=
  match d !! key with
  | Some v => v
  | None => default
  end.

Record User := { user_pk : Z; username : string }.

(** [request.user], [request.GET.get('page')] and [request.data]. *)
Record Request := {
  user : User;
  GET_page : option string;
  data : gmap string Val;
}.

(** The two clock reads of the views: [date.today()] and
    [timezone.now().date()]. *)
Record Clock := { date_today : Z; timezone_now_date : Z }.

(** ** The task table *)

(** Modelled from the spec: the declaration of the [Tasks] model
    ([tasks/models.py] is not among the sources).  The columns are the
    attributes the views read and write; following section 3 of the
    specification the title and the due date are required (NOT NULL), the
    details and the completion date are optional, and [source_routine] is
    the back-reference (routine, date) of a materialized task. *)
Record Tasks := {
  pk : Z;
  created_by : Z;
  task_title : string;
  task_details : option string;
  due_date : Z;
  status : bool;
  done_date : option Z;
  source_routine : option (Z * Z);
}.

Global Instance Tasks_eq_dec : EqDecision Tasks.
Proof. solve_decision. Defined.

(** A model instance in memory: any attribute can be assigned [None]. *)
Record TaskObj := {
  o_pk : Z;
  o_created_by : Z;
  o_task_title : option string;
  o_task_details : option string;
  o_due_date : option Z;
  o_status : bool;
  o_done_date : option Z;
  o_source_routine : option (Z * Z);
}.

Definition obj_of_row (t : Tasks) : TaskObj :=
  {| o_pk := pk t; o_created_by := created_by t;
     o_task_title := Some (task_title t); o_task_details := task_details t;
     o_due_date := Some (due_date t); o_status := status t;
     o_done_date := done_date t; o_source_routine := source_routine t |}.

(** The row an instance is written as; [None] when a NOT NULL column would
    receive [None] (the database then raises [IntegrityError]). *)
Definition row_of_obj (o : TaskObj) : option Tasks :=
  match o_task_title o, o_due_date o with
  | Some title, Some due =>
      Some {| pk := o_pk o; created_by := o_created_by o; task_title := title;
              task_details := o_task_details o; due_date := due;
              status := o_status o; done_date := o_done_date o;
              source_routine := o_source_routine o |}
  | _, _ => None
  end.

Definition seconds_per_day : Z := 86400.

(** The [__date] transform of a [DateTimeField]. *)
Definition date_of (dt : Z) : Z := dt `div` seconds_per_day.

(** A [date] stored in a [DateTimeField]: midnight of that day. *)
Definition datetime_of_date (d : Z) : Z := d * seconds_per_day.

(** The three list views, as [tasks_count] is asked for them. *)
Inductive View := TodayView | UpcomingView | AllView.

(** ** What the views import from outside the sources *)

Class Externals := {
  (** the recurrence rules of the routines and their firing predicate *)
  Rule : Type;
  fires_on : Rule → Z → bool;
  (** [tasks_managements_utils.serialize_task] *)
  Ser : Type;
  serialize_task : Tasks → Ser;
  (** [tasks_managements_utils._parse_date_input]: a datetime, or [None]
      for a parse failure *)
  _parse_date_input : Val → option Z;
  (** Python's [int()] on the [page] query parameter *)
  py_int : string → option Z;
  (** the coercion of an [id__in] element by the primary-key field;
      [None] when the field raises [ValueError] *)
  id_prep : Val → option Z;
  (** [str(value)], as a [CharField] or [TextField] stores a value that is
      not a string *)
  py_str : Val → string;
  (** the view a [url_call] value names for [tasks_count] *)
  view_of_url_call : Val → View;
}.

Section Views.
Context `{Externals}.

(** Modelled from the spec: the routine definitions
    ([Routines] of [tasks/models.py], not among the sources): owner,
    recurrence rule, and the title and details template. *)
Record Routines := {
  r_pk : Z;
  r_owner : Z;
  r_rule : Rule;
  r_title : string;
  r_details : option string;
}.

(** The database: the task table, its primary-key sequence, and the
    routine table. *)
Record Store := {
  tasks : list Tasks;
  next_pk : Z;
  routines : list Routines;
}.

Definition set_tasks (s : Store) (l : list Tasks) : Store :=
  {| tasks := l; next_pk := next_pk s; routines := routines s |}.

(** ** Exceptions and the view monad *)

Inductive Exn :=
| Http404
| IntegrityError
| ValueError
| PageNotAnInteger
| EmptyPage.

Definition M (A : Type) : Type := Store → (Exn + A) * Store.

Global Instance M_ret : MRet M := λ A a s, (inr a, s).

Global Instance M_bind : MBind M := λ A B k m s,
  match m s with
  | (inr a, s') => k a s'
  | (inl e, s') => (inl e, s')
  end.

Definition raise {A} (e : Exn) : M A := λ s, (inl e, s).

Definition read : M Store := λ s, (inr s, s).

Definition write (f : Store → Store) : M unit := λ s, (inr tt, f s).

(** A computation that raises or returns without touching the table. *)
Definition lift {A} (r : Exn + A) : M A := λ s, (r, s).

(** [try: body  except Exception: return handler]. *)
Definition try_except {A} (body : M A) (handler : A) : M A := λ s,
  match body s with
  | (inr a, s') => (inr a, s')
  | (inl _, s') => (inr handler, s')
  end.

(** ** The routine materialization engine *)

(** A task materialized for [(owner, routine, date)]. *)
Definition materialized (owner rid date : Z) (t : Tasks) : Prop :=
  created_by t = owner ∧ source_routine t = Some (rid, date).

Global Instance materialized_dec owner rid date t :
  Decision (materialized owner rid date t).
Proof. unfold materialized. apply _. Defined.

(** The task created from a routine's template for a date: due on that
    date, open, with the back-reference to the routine. *)
Definition task_of_routine (new_pk owner date : Z) (r : Routines) : Tasks :=
  {| pk := new_pk; created_by := owner; task_title := r_title r;
     task_details := r_details r; due_date := datetime_of_date date;
     status := false; done_date := None;
     source_routine := Some (r_pk r, date) |}.

(** Steps 2 and 3 of the engine for one routine: check-or-create. *)
Definition materialize_one (owner date : Z) (s : Store) (r : Routines) : Store :=
  if fires_on (r_rule r) date then
    if decide (Exists (materialized owner (r_pk r) date) (tasks s)) then s
    else {| tasks := tasks s ++ [task_of_routine (next_pk s) owner date r];
            next_pk := next_pk s + 1;
            routines := routines s |}
  else s.

(** Modelled from the spec: [apply_routines] of
    [tasks/utils/apply_routines.py], which is not among the sources; this is
    [Materialize(owner, targetDate)] of section 4.1: load the owner's
    routines, and for each one that fires on the date create its task
    unless one exists for (owner, routine, date).  Creating a row does not
    fail here, so the rule that a failed creation is skipped is not
    exercised. *)
Definition Materialize (owner date : Z) (s : Store) : Store :=
  foldl (materialize_one owner date) s
        (filter (λ r, r_owner r = owner) (routines s)).

(** Modelled from the spec: the call [apply_routines(request, today)] of the
    views is [Materialize] for the requesting user. *)
Definition apply_routines (request : Request) (date : Z) : M unit :=
  write (Materialize (user_pk (user request)) date).

(** ** Query sets *)

(** [created_by=request.user]. *)
Definition owned_by (u : Z) (t : Tasks) : Prop := created_by t = u.

(** [Q(due_date__date=today) | Q(due_date__date__lt=today, status=False)]. *)
Definition due_today_or_overdue (today : Z) (t : Tasks) : Prop :=
  date_of (due_date t) = today ∨
  (date_of (due_date t) < today ∧ status t = false).

(** [due_date__date__gte=today, due_date__date__lte=week_later]. *)
Definition due_between (today week_later : Z) (t : Tasks) : Prop :=
  today ≤ date_of (due_date t) ∧ date_of (due_date t) ≤ week_later.

(** [status=True]. *)
Definition is_completed (t : Tasks) : Prop := status t = true.

(** [id__in=ids]. *)
Definition id_in (ids : list Z) (t : Tasks) : Prop := pk t ∈ ids.

Global Instance owned_by_dec u t : Decision (owned_by u t).
Proof. unfold owned_by. apply _. Defined.
Global Instance due_today_or_overdue_dec d t : Decision (due_today_or_overdue d t).
Proof. unfold due_today_or_overdue. apply _. Defined.
Global Instance due_between_dec a b t : Decision (due_between a b t).
Proof. unfold due_between. apply _. Defined.
Global Instance is_completed_dec t : Decision (is_completed t).
Proof. unfold is_completed. apply _. Defined.
Global Instance id_in_dec ids t : Decision (id_in ids t).
Proof. unfold id_in. apply _. Defined.

(** The order of [order_by('status', 'due_date')]: [False] before [True],
    then the due datetime ascending. *)
Definition status_due_le (a b : Tasks) : Prop :=
  (status a = false ∧ status b = true) ∨
  (status a = status b ∧ due_date a ≤ due_date b).

Global Instance status_due_le_dec : RelDecision status_due_le.
Proof. intros a b. unfold status_due_le. apply _. Defined.

(** [order_by('status', 'due_date')]; the database's sort is modelled by a
    merge sort.  Rows that tie on both keys come in an order the database
    does not fix and that may differ from one query to the next; the merge
    sort fixes one, so a statement that compares the rows of several queries
    assumes that no two rows tie. *)
Definition order_by_status_due_date (qs : list Tasks) : list Tasks :=
  merge_sort status_due_le qs.

(** [qs.count()]. *)
Definition count (qs : list Tasks) : Z := Z.of_nat (length qs).

(** ** Django's [Paginator] *)

Record Paginator := { object_list : list Tasks; per_page : Z }.

Record Page := { page_object_list : list Tasks; number : Z }.

(** [ceil(max(1, count) / per_page)] (no orphans, an empty first page is
    allowed). *)
Definition num_pages (p : Paginator) : Z :=
  (Z.max 1 (count (object_list p)) + per_page p - 1) `div` per_page p.

(** [int(number)] on what the views pass as page number. *)
Definition int_of_page_number (number : Val) : option Z :=
  match number with
  | VInt n => Some n
  | VBool b => Some (if b then 1 else 0)
  | VStr s => py_int s
  | VNone | VList _ => None
  end.

Definition validate_number (p : Paginator) (number : Val) : Exn + Z :=
  match int_of_page_number number with
  | None => inl PageNotAnInteger
  | Some n =>
      if decide (n < 1) then inl EmptyPage
      else if decide (n > num_pages p) then inl EmptyPage
      else inr n
  end.

(** [l[bottom:top]] for [0 <= bottom] and [0 <= top]. *)
Definition slice {A} (l : list A) (bottom top : Z) : list A :=
  drop (Z.to_nat bottom) (take (Z.to_nat top) l).

(** [Paginator.page]. *)
Definition page (p : Paginator) (number : Val) : Exn + Page :=
  match validate_number p number with
  | inl e => inl e
  | inr n =>
      let bottom := (n - 1) * per_page p in
      let top := bottom + per_page p in
      let top := if decide (top >= count (object_list p))
                 then count (object_list p) else top in
      inr {| page_object_list := slice (object_list p) bottom top;
             number := n |}
  end.

(** ** Responses *)

Record Pagination := {
  pagination_page : Z;
  pagination_num_pages : Z;
  pagination_per_page : Z;
  pagination_total : Z;
}.

(** The three counts every successful response carries. *)
Record Counts := {
  total_number_tasks : Z;
  completed_tasks_count : Z;
  pending_tasks : Z;
}.

(** The shapes of the response dictionaries; [success] is [True] in all but
    [ErrorBody]. *)
Inductive Body :=
| ListBody (user_name : string) (user_tasks : list Ser)
           (pagination : Pagination) (counts : Counts)
| TaskBody (task : Ser) (counts : Counts)
| TasksBody (tasks_data : list Ser) (counts : Counts)
| MessageBody (message : string) (counts : Counts)
| ErrorBody (error : string).

Record Response := { body : Body; status_code : Z }.

Definition success (r : Response) : bool :=
  match body r with ErrorBody _ => false | _ => true end.

Definition HTTP_200_OK : Z := 200.
Definition HTTP_201_CREATED : Z := 201.
Definition HTTP_400_BAD_REQUEST : Z := 400.
Definition HTTP_404_NOT_FOUND : Z := 404.
Definition HTTP_500_INTERNAL_SERVER_ERROR : Z := 500.

Definition error_response (msg : string) (code : Z) : Response :=
  {| body := ErrorBody msg; status_code := code |}.

(** ** The list views *)

(** Lines 29-53 of [today_tasks], repeated verbatim in [all_tasks] and
    [next_week_tasks]: paginate by 20, fall back to page 1, count on the
    whole query set. *)
Definition list_response (request : Request) (user_tasks_qs : list Tasks)
  : M Response :=
  let paginator := {| object_list := user_tasks_qs; per_page := 20 |} in
  let page_num := match GET_page request with
                  | Some s => VStr s
                  | None => VInt 1
                  end in
  page_obj ← lift (match page paginator page_num with
                   | inl PageNotAnInteger | inl EmptyPage =>
                       page paginator (VInt 1)
                   | r => r
                   end);
  let tasks_list := serialize_task <$> page_object_list page_obj in
  let completed_tasks_count := count (filter is_completed user_tasks_qs) in
  let total_number_tasks := count user_tasks_qs in
  mret {| body := ListBody (username (user request)) tasks_list
            {| pagination_page := number page_obj;
               pagination_num_pages := num_pages paginator;
               pagination_per_page := per_page paginator;
               pagination_total := count (object_list paginator) |}
            {| total_number_tasks := total_number_tasks;
               completed_tasks_count := completed_tasks_count;
               pending_tasks := total_number_tasks - completed_tasks_count |};
          status_code := HTTP_200_OK |}.

(** The query set of [today_tasks] (lines 22-27). *)
Definition today_qs (u today : Z) (table : list Tasks) : list Tasks :=
  order_by_status_due_date
    (filter (due_today_or_overdue today) (filter (owned_by u) table)).

(** The query set of [all_tasks] (line 60). *)
Definition all_qs (u : Z) (table : list Tasks) : list Tasks :=
  order_by_status_due_date (filter (owned_by u) table).

(** The query set of [next_week_tasks] (lines 97-101). *)
Definition next_week_qs (u today week_later : Z) (table : list Tasks)
  : list Tasks :=
  order_by_status_due_date
    (filter (λ t, owned_by u t ∧ due_between today week_later t) table).

Definition today_tasks (clock : Clock) (request : Request) : M Response :=
  let today := date_today clock in
  apply_routines request today;;
  s ← read;
  let user_tasks_qs := today_qs (user_pk (user request)) today (tasks s) in
  list_response request user_tasks_qs.

Definition all_tasks (request : Request) : M Response :=
  s ← read;
  let user_tasks_qs := all_qs (user_pk (user request)) (tasks s) in
  list_response request user_tasks_qs.

Definition next_week_tasks (clock : Clock) (request : Request) : M Response :=
  let today := date_today clock in
  apply_routines request today;;
  let week_later := today + 7 in
  s ← read;
  let user_tasks_qs :=
    next_week_qs (user_pk (user request)) today week_later (tasks s) in
  list_response request user_tasks_qs.

(** The three list views by name, and the query set each paginates. *)
Definition list_view (v : View) (clock : Clock) (request : Request)
  : M Response :=
  match v with
  | TodayView => today_tasks clock request
  | UpcomingView => next_week_tasks clock request
  | AllView => all_tasks request
  end.

Definition view_qs (v : View) (clock : Clock) (u : Z) (table : list Tasks)
  : list Tasks :=
  match v with
  | TodayView => today_qs u (date_today clock) table
  | UpcomingView =>
      next_week_qs u (date_today clock) (date_today clock + 7) table
  | AllView => all_qs u table
  end.

(** The same request for another page. *)
Definition with_page (request : Request) (page : option string) : Request :=
  {| user := user request; GET_page := page; data := data request |}.

(** The counts a response carries, if any. *)
Definition response_counts (r : Response) : option Counts :=
  match body r with
  | ListBody _ _ _ c | TaskBody _ c | TasksBody _ c | MessageBody _ c => Some c
  | ErrorBody _ => None
  end.

(** The rows a list response shows, serialized. *)
Definition response_user_tasks (r : Response) : list Ser :=
  match body r with
  | ListBody _ l _ _ => l
  | _ => []
  end.

Definition response_pagination (r : Response) : option Pagination :=
  match body r with
  | ListBody _ _ p _ => Some p
  | _ => None
  end.

(** ** The model layer the mutations use *)

(** The three counts of a query set. *)
Definition qs_counts (qs : list Tasks) : Counts :=
  let total := count qs in
  let completed := count (filter is_completed qs) in
  {| total_number_tasks := total;
     completed_tasks_count := completed;
     pending_tasks := total - completed |}.

(** Modelled from the spec: [tasks_managements_utils.tasks_count], which is
    not among the sources: the total, completed and pending counts of the
    view named by [url_call], for the requesting user. *)
Definition tasks_count (clock : Clock) (url_call : Val) (request : Request)
  : M Counts :=
  s ← read;
  mret (qs_counts (view_qs (view_of_url_call url_call) clock
                           (user_pk (user request)) (tasks s))).

(** [get_object_or_404(Tasks, id=task_id, created_by=request.user)]; the
    primary key is unique, so the query matches at most one row. *)
Definition get_object_or_404 (task_id : Z) (u : Z) : M TaskObj :=
  s ← read;
  match filter (λ t, pk t = task_id ∧ owned_by u t) (tasks s) with
  | t :: _ => mret (obj_of_row t)
  | [] => raise Http404
  end.

(** The value a [CharField] or [TextField] stores for an assigned Python
    value. *)
Definition char_value (v : Val) : option string :=
  match v with
  | VNone => None
  | VStr s => Some s
  | _ => Some (py_str v)
  end.

(** The Python value of a nullable text attribute. *)
Definition val_of_text (o : option string) : Val :=
  match o with
  | Some s => VStr s
  | None => VNone
  end.

(** [Tasks.objects.create(task_title=..., task_details=..., due_date=...,
    created_by=...)]: the other columns take their defaults. *)
Definition create (task_title task_details : Val) (due_date : Z) (u : Z)
  : M Tasks :=
  match char_value task_title with
  | None => raise IntegrityError
  | Some title =>
      s ← read;
      let t := {| pk := next_pk s; created_by := u; task_title := title;
                  task_details := char_value task_details;
                  due_date := due_date; status := false; done_date := None;
                  source_routine := None |} in
      write (λ s, {| tasks := tasks s ++ [t]; next_pk := next_pk s + 1;
                     routines := routines s |});;
      mret t
  end.

(** The table after the rows [rows] are written over the rows with the same
    primary key. *)
Definition update_rows (rows : list Tasks) (table : list Tasks) : list Tasks :=
  (λ t, match list_find (λ r, pk r = pk t) rows with
        | Some (_, r) => r
        | None => t
        end) <$> table.

(** [task.save()] of a loaded instance. *)
Definition save (task : TaskObj) : M Tasks :=
  match row_of_obj task with
  | None => raise IntegrityError
  | Some r => write (λ s, set_tasks s (update_rows [r] (tasks s)));; mret r
  end.

(** [Tasks.objects.bulk_update(objs, fields)]: one statement for all the
    instances.  The instances were loaded by the same request, so the
    columns outside [fields] are written back unchanged. *)
Definition bulk_update (objs : list TaskObj) : M (list Tasks) :=
  match mapM row_of_obj objs with
  | None => raise IntegrityError
  | Some rows => write (λ s, set_tasks s (update_rows rows (tasks s)));;
                 mret rows
  end.

(** [task.delete()] and [qs.delete()]: the rows selected by [P] go. *)
Definition delete_where (P : Tasks → Prop) `{∀ t, Decision (P t)} : M unit :=
  write (λ s, set_tasks s (filter (λ t, ¬ P t) (tasks s))).

(** The condition of
    [Tasks.objects.filter(id__in=task_ids, created_by=request.user)]. *)
Definition owned_id_in (ids : list Z) (u : Z) (t : Tasks) : Prop :=
  id_in ids t ∧ owned_by u t.

Global Instance owned_id_in_dec ids u t : Decision (owned_id_in ids u t).
Proof. unfold owned_id_in. apply _. Defined.

(** Building the [id__in] lookup coerces every element of the list and
    raises [ValueError] on one the primary-key field cannot take. *)
Definition id_in_lookup (task_ids : list Val) : M (list Z) :=
  match mapM id_prep task_ids with
  | None => raise ValueError
  | Some ids => mret ids
  end.

(** Evaluating a query set: the rows of the table that satisfy it. *)
Definition evaluate (P : Tasks → Prop) `{∀ t, Decision (P t)}
  : M (list Tasks) :=
  s ← read; mret (filter P (tasks s)).

Definition generic_error : Response :=
  error_response "An error occurred" HTTP_500_INTERNAL_SERVER_ERROR.

Definition not_a_list_error : Response :=
  error_response "task_ids should be a list of IDs" HTTP_400_BAD_REQUEST.

Definition empty_list_error : Response :=
  error_response "task_ids list is empty" HTTP_400_BAD_REQUEST.

(** ** The mutation views *)

Definition add_task (clock : Clock) (request : Request) : M Response :=
  try_except (
    let today := timezone_now_date clock in
    let url_call := get (data request) "url_call" (VStr "all") in
    let task_title := get (data request) "task_title" VNone in
    let task_details := get (data request) "task_details" VNone in
    let due_date_raw := get (data request) "due_date" VNone in
    let due_date := default (datetime_of_date today)
                            (_parse_date_input due_date_raw) in
    task ← create task_title task_details due_date (user_pk (user request));
    let task_data := serialize_task task in
    counts ← tasks_count clock url_call request;
    mret {| body := TaskBody task_data counts;
            status_code := HTTP_201_CREATED |}
  ) generic_error.

(** Lines 178-186 of [update_task]: the title and the details are taken
    from the request, with the task's own as default, and the due date is
    assigned the parser's result when the request has one. *)
Definition assign_fields (request : Request) (task : TaskObj) : TaskObj :=
  let task_title :=
    get (data request) "task_title" (val_of_text (o_task_title task)) in
  let task_details :=
    get (data request) "task_details" (val_of_text (o_task_details task)) in
  let due_date_raw := get (data request) "due_date" VNone in
  {| o_pk := o_pk task; o_created_by := o_created_by task;
     o_task_title := char_value task_title;
     o_task_details := char_value task_details;
     o_due_date := match due_date_raw with
                   | VNone => o_due_date task
                   | _ => _parse_date_input due_date_raw
                   end;
     o_status := o_status task; o_done_date := o_done_date task;
     o_source_routine := o_source_routine task |}.

Definition update_task (clock : Clock) (request : Request) (task_id : Z)
  : M Response :=
  try_except (
    let url_call := get (data request) "url_call" (VStr "all") in
    task ← get_object_or_404 task_id (user_pk (user request));
    let task := assign_fields request task in
    saved ← save task;
    let task_data := serialize_task saved in
    counts ← tasks_count clock url_call request;
    mret {| body := TaskBody task_data counts; status_code := HTTP_200_OK |}
  ) generic_error.

(** [t.due_date = parsed]. *)
Definition set_due_date (parsed : option Z) (t : TaskObj) : TaskObj :=
  {| o_pk := o_pk t; o_created_by := o_created_by t;
     o_task_title := o_task_title t; o_task_details := o_task_details t;
     o_due_date := parsed; o_status := o_status t;
     o_done_date := o_done_date t; o_source_routine := o_source_routine t |}.

(** In the three bulk views the tests [not isinstance(task_ids, list)] and
    [not task_ids] are the branches of the match on [task_ids]. *)
Definition multiple_update_task_dates (clock : Clock) (request : Request)
  : M Response :=
  try_except (
    let url_call := get (data request) "url_call" (VStr "all") in
    let task_ids := get (data request) "task_ids" (VList []) in
    match task_ids with
    | VList [] => mret empty_list_error
    | VList task_ids =>
        ids ← id_in_lookup task_ids;
        tasks_qs ← evaluate (owned_id_in ids (user_pk (user request)));
        match tasks_qs with
        | [] => mret (error_response "No tasks found" HTTP_404_NOT_FOUND)
        | _ =>
            let due_date_raw := get (data request) "due_date" VNone in
            tasks_qs ← match due_date_raw with
                       | VNone => mret tasks_qs
                       | _ =>
                           let parsed := _parse_date_input due_date_raw in
                           bulk_update
                             (set_due_date parsed ∘ obj_of_row <$> tasks_qs)
                       end;
            let tasks_data := serialize_task <$> tasks_qs in
            counts ← tasks_count clock url_call request;
            mret {| body := TasksBody tasks_data counts;
                    status_code := HTTP_200_OK |}
        end
    | _ => mret not_a_list_error
    end
  ) generic_error.

Definition delete_task (clock : Clock) (request : Request) (task_id : Z)
  : M Response :=
  try_except (
    task ← get_object_or_404 task_id (user_pk (user request));
    let url_call := get (data request) "url_call" (VStr "all") in
    delete_where (λ t, pk t = o_pk task);;
    counts ← tasks_count clock url_call request;
    mret {| body := MessageBody "Task deleted" counts;
            status_code := HTTP_200_OK |}
  ) generic_error.

Definition multiple_delete_task (clock : Clock) (request : Request)
  : M Response :=
  try_except (
    let task_ids := get (data request) "task_ids" (VList []) in
    let url_call := get (data request) "url_call" (VStr "all") in
    match task_ids with
    | VList [] => mret empty_list_error
    | VList task_ids =>
        ids ← id_in_lookup task_ids;
        delete_where (owned_id_in ids (user_pk (user request)));;
        counts ← tasks_count clock url_call request;
        mret {| body := MessageBody "Tasks deleted" counts;
                status_code := HTTP_200_OK |}
    | _ => mret not_a_list_error
    end
  ) generic_error.

(** [t.status = not t.status] and
    [t.done_date = timezone.now().date() if t.status else None]. *)
Definition toggle (clock : Clock) (t : TaskObj) : TaskObj :=
  let new_status := negb (o_status t) in
  {| o_pk := o_pk t; o_created_by := o_created_by t;
     o_task_title := o_task_title t; o_task_details := o_task_details t;
     o_due_date := o_due_date t; o_status := new_status;
     o_done_date := if new_status then Some (timezone_now_date clock)
                    else None;
     o_source_routine := o_source_routine t |}.

Definition task_complete (clock : Clock) (request : Request) (task_id : Z)
  : M Response :=
  try_except (
    let url_call := get (data request) "url_call" (VStr "all") in
    task ← get_object_or_404 task_id (user_pk (user request));
    let task := toggle clock task in
    saved ← save task;
    let task_data := serialize_task saved in
    counts ← tasks_count clock url_call request;
    mret {| body := TaskBody task_data counts; status_code := HTTP_200_OK |}
  ) generic_error.

Definition multiple_task_complete (clock : Clock) (request : Request)
  : M Response :=
  try_except (
    let url_call := get (data request) "url_call" (VStr "all") in
    let task_ids := get (data request) "task_ids" (VList []) in
    match task_ids with
    | VList task_ids =>
        ids ← id_in_lookup task_ids;
        tasks_qs ← evaluate (owned_id_in ids (user_pk (user request)));
        tasks_qs ← bulk_update (toggle clock ∘ obj_of_row <$> tasks_qs);
        let tasks_data := serialize_task <$> tasks_qs in
        counts ← tasks_count clock url_call request;
        mret {| body := TasksBody tasks_data counts;
                status_code := HTTP_200_OK |}
    | _ => mret not_a_list_error
    end
  ) generic_error.

(** ** The mutations by name, and the table invariant *)

Inductive Mutation :=
| Update (task_id : Z)
| UpdateDates
| Delete (task_id : Z)
| BulkDelete
| ToggleComplete (task_id : Z)
| BulkToggleComplete.

Definition mutate (op : Mutation) (clock : Clock) (request : Request)
  : M Response :=
  match op with
  | Update task_id => update_task clock request task_id
  | UpdateDates => multiple_update_task_dates clock request
  | Delete task_id => delete_task clock request task_id
  | BulkDelete => multiple_delete_task clock request
  | ToggleComplete task_id => task_complete clock request task_id
  | BulkToggleComplete => multiple_task_complete clock request
  end.

(** The primary key is unique and below the sequence's next value. *)
Definition wf_store (s : Store) : Prop :=
  NoDup (pk <$> tasks s) ∧ Forall (λ k, k < next_pk s) (pk <$> tasks s).

Global Instance wf_store_dec s : Decision (wf_store s).
Proof. unfold wf_store. apply _. Defined.

End Views.

(** ** [imhotep_tasks/middleware.py] *)

(** A request as the middleware chain sees it: its path and the attributes
    set on the object, which the chain shares. *)
Record HttpRequest := {
  path : string;
  attributes : gmap string Val;
}.

(** [setattr(request, name, value)]. *)
Definition setattr (request : HttpRequest) (name : string) (value : Val)
  : HttpRequest :=
  {| path := path request; attributes := <[name := value]> (attributes request) |}.

(** [s.startswith(prefix)]. *)
Definition startswith (s prefix : string) : bool := String.prefix prefix s.

(** [DisableCSRFForAPIMiddleware]: [__init__] stores [get_response], the
    rest of the chain, which returns its response and the request object as
    it leaves it. *)
Record DisableCSRFForAPIMiddleware (HttpResponse : Type) := {
  get_response : HttpRequest → HttpResponse * HttpRequest;
}.
Arguments get_response {HttpResponse} _ _.

(** [DisableCSRFForAPIMiddleware.__call__]. *)
Definition call {HttpResponse} (self : DisableCSRFForAPIMiddleware HttpResponse)
           (request : HttpRequest) : HttpResponse * HttpRequest :=
  let request :=
    if startswith (path request) "/api/"
    then setattr request "_dont_enforce_csrf_checks" (VBool true)
    else request in
  let response := get_response self request in
  response.

(** ** A concrete instance of the externals *)

(** A small instance on which the views run: rules are sets of week days,
    the serializer is the identity, dates and ids are read from decimal
    numerals. *)
Module Sample.

Definition digit_of (c : Ascii.ascii) : option Z :=
  let n := Z.of_N (Ascii.N_of_ascii c) in
  if decide (48 ≤ n ≤ 57) then Some (n - 48) else None.

Fixpoint digits (s : string) (acc : Z) : option Z :=
  match s with
  | EmptyString => Some acc
  | String c s' =>
      match digit_of c with
      | Some d => digits s' (10 * acc + d)
      | None => None
      end
  end.

Definition decimal (s : string) : option Z :=
  match s with
  | EmptyString => None
  | _ => digits s 0
  end.

Definition int_of_val (v : Val) : option Z :=
  match v with
  | VInt n => Some n
  | VStr s => decimal s
  | _ => None
  end.

Definition externals : Externals :=
  {| Rule := list Z;
     fires_on := λ r d, bool_decide (d `mod` 7 ∈ r);
     Ser := Tasks;
     serialize_task := λ t, t;
     _parse_date_input := λ v, datetime_of_date <$> int_of_val v;
     py_int := decimal;
     id_prep := int_of_val;
     py_str := λ v, match v with VStr s => s | _ => "" end;
     view_of_url_call := λ v,
       match v with
       | VStr "today-tasks" => TodayView
       | VStr "next-week" => UpcomingView
       | _ => AllView
       end |}.

Definition alice : User := {| user_pk := 1; username := "alice" |}.
Definition bob : User := {| user_pk := 2; username := "bob" |}.

Definition clock : Clock := {| date_today := 100; timezone_now_date := 100 |}.

Definition request (u : User) (page : option string)
           (fields : list (string * Val)) : Request :=
  {| user := u; GET_page := page; data := list_to_map fields |}.

Definition task (id owner : Z) (title : string) (day : Z) (done : bool)
  : Tasks :=
  {| pk := id; created_by := owner; task_title := title;
     task_details := None; due_date := datetime_of_date day;
     status := done;
     done_date := if done then Some day else None;
     source_routine := None |}.

(** Alice: one task done today, two open today, one open from
    yesterday, one open next week; Bob: one open today. *)
Definition table : list Tasks :=
  [ task 1 1 "report" 100 true;
    task 2 1 "call" 100 false;
    task 3 1 "mail" 100 false;
    task 4 1 "taxes" 99 false;
    task 5 2 "bob's" 100 false;
    task 6 1 "trip" 105 false ].

(** A store without routines, and one where Alice has a routine for week
    day 2 (day 100 is one) and one for week day 3. *)
Definition routine (id owner : Z) (week_days : list Z) (title : string)
  : @Routines externals :=
  @Build_Routines externals id owner week_days title None.

Definition store : @Store externals :=
  {| tasks := table; next_pk := 7; routines := [] |}.

Definition store_with_routines : @Store externals :=
  {| tasks := table; next_pk := 7;
     routines := [ routine 1 1 [2] "stretch"; routine 2 1 [3] "review" ] |}.

End Sample.

(** Unfolding of the monad operations in a goal. *)
Ltac run :=
  unfold mbind, M_bind, mret, M_ret, lift, raise, read, write, try_except;
  simpl.

(** ** Materialization is idempotent *)

Section Materialization.
Context `{Externals}.

Lemma materialize_one_routines owner date s r :
  routines (materialize_one owner date s r) = routines s.
Proof.
  unfold materialize_one.
  destruct (fires_on _ _); [|done]. by case_decide.
Qed.

(** The engine only appends: what is materialized stays materialized. *)
Lemma materialize_one_keeps owner date s r (P : Tasks → Prop) :
  Exists P (tasks s) → Exists P (tasks (materialize_one owner date s r)).
Proof.
  intros HP. unfold materialize_one.
  destruct (fires_on _ _); [|done]. case_decide; [done|].
  simpl. apply Exists_app. by left.
Qed.

Lemma materialize_each_keeps owner date rs s (P : Tasks → Prop) :
  Exists P (tasks s) →
  Exists P (tasks (foldl (materialize_one owner date) s rs)).
Proof.
  revert s. induction rs as [|r rs IH]; intros s HP; [done|].
  simpl. apply IH. by apply materialize_one_keeps.
Qed.

Lemma materialize_each_routines owner date rs s :
  routines (foldl (materialize_one owner date) s rs) = routines s.
Proof.
  revert s. induction rs as [|r rs IH]; intros s; [done|].
  simpl. rewrite IH. apply materialize_one_routines.
Qed.

(** Every firing routine of [rs] has its task for the date. *)
Definition covered (owner date : Z) (rs : list Routines) (s : Store) : Prop :=
  Forall (λ r, fires_on (r_rule r) date = true →
               Exists (materialized owner (r_pk r) date) (tasks s)) rs.

Lemma materialize_one_covers owner date s r :
  fires_on (r_rule r) date = true →
  Exists (materialized owner (r_pk r) date)
         (tasks (materialize_one owner date s r)).
Proof.
  intros Hf. unfold materialize_one. rewrite Hf.
  case_decide; [done|]. simpl. apply Exists_app. right.
  apply Exists_cons_hd. by split.
Qed.

Lemma materialize_each_covers owner date rs s :
  covered owner date rs (foldl (materialize_one owner date) s rs).
Proof.
  revert s. induction rs as [|r rs IH]; intros s; [by constructor|].
  simpl. constructor; [|apply IH].
  intros Hf. apply materialize_each_keeps. by apply materialize_one_covers.
Qed.

(** On a covered store the engine is a no-op. *)
Lemma materialize_each_covered owner date rs s :
  covered owner date rs s → foldl (materialize_one owner date) s rs = s.
Proof.
  induction 1 as [|r rs Hr _ IH]; [done|].
  simpl. replace (materialize_one owner date s r) with s; [done|].
  unfold materialize_one. destruct (fires_on _ _) eqn:Hf; [|done].
  by rewrite decide_True by auto.
Qed.

Lemma Materialize_idempotent owner date s :
  Materialize owner date (Materialize owner date s) = Materialize owner date s.
Proof.
  unfold Materialize. rewrite materialize_each_routines.
  apply materialize_each_covered, materialize_each_covers.
Qed.

Lemma Materialize_iter owner date s n :
  Nat.iter (S n) (Materialize owner date) s = Materialize owner date s.
Proof.
  induction n as [|n IH]; [done|].
  change (Nat.iter (S (S n)) (Materialize owner date) s)
    with (Materialize owner date (Nat.iter (S n) (Materialize owner date) s)).
  rewrite IH. apply Materialize_idempotent.
Qed.

(** [n] successive calls of a view-level computation, threading the
    table. *)
Fixpoint repeat_calls (n : nat) (m : M unit) (s : Store) : Store :=
  match n with
  | O => s
  | S n => repeat_calls n m (m s).2
  end.

Lemma repeat_calls_apply_routines n request date s :
  repeat_calls n (apply_routines request date) s =
  Nat.iter n (Materialize (user_pk (user request)) date) s.
Proof.
  revert s. induction n as [|n IH]; intros s; [done|].
  simpl repeat_calls. rewrite IH. simpl.
  clear IH. induction n as [|n IH]; [done|]. simpl. by rewrite IH.
Qed.

(** A pair that has its task gets no further one. *)
Lemma materialize_one_no_duplicate owner date s r rid :
  Exists (materialized owner rid date) (tasks s) →
  filter (materialized owner rid date)
         (tasks (materialize_one owner date s r)) =
  filter (materialized owner rid date) (tasks s).
Proof.
  intros Hex. unfold materialize_one.
  destruct (fires_on _ _); [|done]. case_decide as Hr; [done|].
  simpl. rewrite filter_app, filter_cons_False, filter_nil, app_nil_r; [done|].
  intros [_ Hsrc]. simpl in Hsrc. by simplify_eq.
Qed.

Lemma materialize_each_no_duplicate owner date rs s rid :
  Exists (materialized owner rid date) (tasks s) →
  filter (materialized owner rid date)
         (tasks (foldl (materialize_one owner date) s rs)) =
  filter (materialized owner rid date) (tasks s).
Proof.
  revert s. induction rs as [|r rs IH]; intros s Hex; [done|].
  simpl. rewrite IH by by apply materialize_one_keeps.
  by apply materialize_one_no_duplicate.
Qed.

(** C1. Calling [apply_routines] [n >= 1] times for the same request user
    and date leaves the same table as calling it once, and a call on a table
    that already holds the task of a (routine, date) pair adds no task for
    that pair: the tasks materialized for the pair are the same before and
    after. *)
Theorem apply_routines_idempotent (n : nat) request date s :
  (1 ≤ n)%nat →
  repeat_calls n (apply_routines request date) s =
    (apply_routines request date s).2 ∧
  ∀ rid, Exists (materialized (user_pk (user request)) rid date) (tasks s) →
         filter (materialized (user_pk (user request)) rid date)
                (tasks (apply_routines request date s).2) =
         filter (materialized (user_pk (user request)) rid date) (tasks s).
Proof.
  intros Hn. split.
  - rewrite repeat_calls_apply_routines.
    destruct n as [|n]; [lia|]. apply Materialize_iter.
  - intros rid Hex. simpl. by apply materialize_each_no_duplicate.
Qed.

End Materialization.

(** ** The list views *)

Section ListViews.
Context `{Externals}.

Lemma num_pages_20_pos qs :
  1 ≤ num_pages {| object_list := qs; per_page := 20 |}.
Proof.
  unfold num_pages, count. simpl.
  apply Z.div_le_lower_bound; lia.
Qed.

(** Page 1 always exists. *)
Lemma validate_number_first qs :
  validate_number {| object_list := qs; per_page := 20 |} (VInt 1) = inr 1.
Proof.
  unfold validate_number. cbn [int_of_page_number].
  pose proof (num_pages_20_pos qs).
  rewrite decide_False by lia. by rewrite decide_False by lia.
Qed.

(** The number of the page a list view serves for a [page] parameter: the
    requested one when valid, else 1. *)
Definition served_page (qs : list Tasks) (page : option string) : Z :=
  match validate_number {| object_list := qs; per_page := 20 |}
          (match page with Some s => VStr s | None => VInt 1 end) with
  | inr n => n
  | inl _ => 1
  end.

(** The response of a list view over the query set [qs]. *)
Definition list_response_of (request : Request) (qs : list Tasks) : Response :=
  let n := served_page qs (GET_page request) in
  {| body := ListBody (username (user request))
       (serialize_task <$>
          slice qs ((n - 1) * 20)
                (if decide ((n - 1) * 20 + 20 >= count qs) then count qs
                 else (n - 1) * 20 + 20))
       {| pagination_page := n;
          pagination_num_pages :=
            num_pages {| object_list := qs; per_page := 20 |};
          pagination_per_page := 20;
          pagination_total := count qs |}
       {| total_number_tasks := count qs;
          completed_tasks_count := count (filter is_completed qs);
          pending_tasks := count qs - count (filter is_completed qs) |};
     status_code := HTTP_200_OK |}.

Lemma list_response_run request qs s :
  list_response request qs s = (inr (list_response_of request qs), s).
Proof.
  unfold list_response, list_response_of, served_page, page.
  pose proof (validate_number_first qs) as H1.
  destruct (GET_page request) as [p|]; run.
  - destruct (validate_number _ (VStr p)) as [e|n] eqn:Hv; [|done].
    unfold validate_number in Hv.
    destruct (int_of_page_number _);
      repeat match type of Hv with
             | context [decide ?P] => destruct (decide P)
             end;
      simplify_eq; by rewrite H1.
  - by rewrite H1.
Qed.

(** The table a list view queries: the one the request finds, after the
    routines were applied where the view applies them. *)
Definition queried_store (v : View) (clock : Clock) (request : Request)
           (s : Store) : Store :=
  match v with
  | AllView => s
  | _ => Materialize (user_pk (user request)) (date_today clock) s
  end.

Lemma list_view_run v clock request s :
  list_view v clock request s =
  (inr (list_response_of request
          (view_qs v clock (user_pk (user request))
                   (tasks (queried_store v clock request s)))),
   queried_store v clock request s).
Proof.
  destruct v; unfold list_view, today_tasks, next_week_tasks, all_tasks,
    apply_routines; run; by rewrite list_response_run.
Qed.

Lemma queried_store_with_page v clock request page s :
  queried_store v clock (with_page request page) s =
  queried_store v clock request s.
Proof. by destruct v. Qed.

(** C2. Every list view answers 200 with counts taken on the whole query
    set of the view: the total is its size, the completed count the number
    of its completed rows, pending is their difference, and the same request
    for any other page carries the same counts. *)
Theorem list_view_counts v clock request s :
  ∃ resp counts,
    (list_view v clock request s).1 = inr resp ∧
    status_code resp = HTTP_200_OK ∧
    response_counts resp = Some counts ∧
    let qs := view_qs v clock (user_pk (user request))
                (tasks (list_view v clock request s).2) in
    total_number_tasks counts = count qs ∧
    completed_tasks_count counts = count (filter is_completed qs) ∧
    pending_tasks counts =
      total_number_tasks counts - completed_tasks_count counts ∧
    ∀ page, ∃ resp',
      (list_view v clock (with_page request page) s).1 = inr resp' ∧
      response_counts resp' = Some counts.
Proof.
  rewrite list_view_run. eexists _, _. simpl.
  repeat split; try reflexivity.
  intros page. rewrite list_view_run. eexists. split; [done|].
  by rewrite queried_store_with_page.
Qed.

Lemma slice_length_le {A} (l : list A) b t :
  0 ≤ b → t ≤ b + 20 → (length (slice l b t) ≤ 20)%nat.
Proof.
  intros Hb Ht. unfold slice. rewrite length_drop, length_take. lia.
Qed.

Lemma slice_first_page qs :
  slice qs ((1 - 1) * 20)
        (if decide ((1 - 1) * 20 + 20 >= count qs) then count qs
         else (1 - 1) * 20 + 20) = take 20 qs.
Proof.
  unfold slice, count. simpl. case_decide as Hc.
  - rewrite Nat2Z.id, !take_ge by lia. done.
  - done.
Qed.

Lemma served_page_bounds qs page :
  1 ≤ served_page qs page ≤ num_pages {| object_list := qs; per_page := 20 |}.
Proof.
  pose proof (num_pages_20_pos qs).
  unfold served_page, validate_number.
  destruct (int_of_page_number _); [|lia].
  repeat case_decide; lia.
Qed.

(** C9. A list view always answers 200 with at most 20 rows and reports a
    page size of 20; and for a [page] parameter that is not a number, or
    that is a number beyond the last page, the response is the one of the
    same request without the parameter (page 1): page number 1 and the first
    20 rows of the view's query set. *)
Theorem list_view_page_fallback v clock request s :
  ∃ resp pagination,
    (list_view v clock request s).1 = inr resp ∧
    status_code resp = HTTP_200_OK ∧ success resp = true ∧
    response_pagination resp = Some pagination ∧
    pagination_per_page pagination = 20 ∧
    (length (response_user_tasks resp) ≤ 20)%nat ∧
    let qs := view_qs v clock (user_pk (user request))
                (tasks (list_view v clock request s).2) in
    ∀ p, GET_page request = Some p →
         py_int p = None ∨
         (∃ n, py_int p = Some n ∧
               n > num_pages {| object_list := qs; per_page := 20 |}) →
         list_view v clock request s =
           list_view v clock (with_page request None) s ∧
         pagination_page pagination = 1 ∧
         response_user_tasks resp = serialize_task <$> take 20 qs.
Proof.
  rewrite list_view_run. eexists _, _. simpl.
  split_and!; try reflexivity.
  - unfold list_response_of, response_user_tasks. cbn [body].
    rewrite length_fmap. pose proof (served_page_bounds
      (view_qs v clock (user_pk (user request))
         (tasks (queried_store v clock request s))) (GET_page request)).
    apply slice_length_le; [lia|]. case_decide; lia.
  - intros p Hp Hbad.
    assert (served_page (view_qs v clock (user_pk (user request))
              (tasks (queried_store v clock request s))) (Some p) = 1) as H1.
    { unfold served_page, validate_number. cbn [int_of_page_number].
      destruct Hbad as [->|(n & -> & Hn)]; [done|].
      case_decide; [done|]. by rewrite decide_True. }
    rewrite list_view_run, queried_store_with_page.
    unfold list_response_of, response_user_tasks.
    cbn [GET_page with_page user body pagination_page].
    rewrite Hp, H1.
    assert (served_page (view_qs v clock (user_pk (user request))
              (tasks (queried_store v clock request s))) None = 1) as ->.
    { unfold served_page. by rewrite validate_number_first. }
    split_and!; [done..|]. by rewrite slice_first_page.
Qed.

(** *** The order of the views *)

Global Instance status_due_le_total : Total status_due_le.
Proof.
  intros a b. unfold status_due_le.
  destruct (status a), (status b), (decide (due_date a ≤ due_date b));
    first [by left; right | by left; left | by right; left
          | right; right; split; [done|lia] ].
Qed.

Global Instance status_due_le_trans : Transitive status_due_le.
Proof.
  intros a b c. unfold status_due_le.
  destruct (status a), (status b), (status c); intros [[??]|[??]] [[??]|[??]];
    first [done | by left | right; split; [done|lia] ].
Qed.

Lemma order_by_sorted qs :
  StronglySorted status_due_le (order_by_status_due_date qs).
Proof. apply StronglySorted_merge_sort; apply _. Qed.

Lemma order_by_Permutation qs : order_by_status_due_date qs ≡ₚ qs.
Proof. apply merge_sort_Permutation. Qed.

(** In a sorted list the order holds between any two positions. *)
Lemma StronglySorted_positions {A} (R : relation A) l i j a b :
  StronglySorted R l → (i < j)%nat → l !! i = Some a → l !! j = Some b → R a b.
Proof.
  intros Hs. revert i j. induction Hs as [|x l Hs IH Hx]; intros i j Hij Hi Hj.
  - by rewrite lookup_nil in Hi.
  - destruct j as [|j]; [lia|]. destruct i as [|i]; simpl in *.
    + simplify_eq. rewrite Forall_forall in Hx.
      apply Hx. by eapply list_elem_of_lookup_2.
    + eapply (IH i j); [lia|done..].
Qed.

Lemma date_of_mono a b : a ≤ b → date_of a ≤ date_of b.
Proof. intros. unfold date_of, seconds_per_day. by apply Z.div_le_mono. Qed.

(** What the order says in the words of the views: completed rows come
    after the open ones, and rows of equal status are in due-date order. *)
Lemma status_due_le_spelled a b :
  status_due_le a b →
  (status a = true → status b = true) ∧
  (status a = status b →
   due_date a ≤ due_date b ∧ date_of (due_date a) ≤ date_of (due_date b)).
Proof.
  unfold status_due_le. intros [[Ha Hb]|[Hab Hd]].
  - split; [congruence|]. congruence.
  - split; [congruence|]. intros _. split; [done|]. by apply date_of_mono.
Qed.

Lemma slice_page {A} (l : list A) b :
  0 ≤ b →
  slice l b (if decide (b + 20 >= Z.of_nat (length l))
             then Z.of_nat (length l) else b + 20) =
  take 20 (drop (Z.to_nat b) l).
Proof.
  intros Hb. unfold slice. case_decide as Hc.
  - rewrite Nat2Z.id, take_ge by lia.
    rewrite (take_ge (drop _ _)); [done|]. rewrite length_drop. lia.
  - rewrite take_drop_commute. f_equal. f_equal. lia.
Qed.

Lemma num_pages_bounds qs :
  20 * (num_pages {| object_list := qs; per_page := 20 |} - 1)
    < Z.max 1 (count qs) ≤
  20 * num_pages {| object_list := qs; per_page := 20 |}.
Proof.
  unfold num_pages. simpl.
  pose proof (Z.div_mod (Z.max 1 (count qs) + 20 - 1) 20).
  pose proof (Z.mod_pos_bound (Z.max 1 (count qs) + 20 - 1) 20).
  lia.
Qed.

(** The page a list view is to serve for a request, given the number of
    pages: the one the [page] parameter names when it reads as a number from
    1 to that number, and page 1 otherwise (no parameter, not a number, out
    of range). *)
Definition page_asked (request : Request) (np : Z) : Z :=
  match GET_page request with
  | None => 1
  | Some p =>
      match py_int p with
      | Some k => if decide (1 ≤ k ≤ np) then k else 1
      | None => 1
      end
  end.

Lemma served_page_asked qs request :
  served_page qs (GET_page request) =
  page_asked request (num_pages {| object_list := qs; per_page := 20 |}).
Proof.
  pose proof (num_pages_20_pos qs).
  unfold served_page, validate_number, page_asked.
  destruct (GET_page request) as [p|]; cbn [int_of_page_number].
  - destruct (py_int p) as [k|]; [|done]. repeat case_decide; lia.
  - repeat case_decide; lia.
Qed.

(** What a list view answers: status 200 and the page asked for, that is
    the rows of that page of the view's query set, serialized, with the
    size of the whole query set as total. *)
Lemma list_view_serves v clock request s :
  let qs := view_qs v clock (user_pk (user request))
              (tasks (queried_store v clock request s)) in
  let np := num_pages {| object_list := qs; per_page := 20 |} in
  let n := page_asked request np in
  ∃ resp pagination counts,
    list_view v clock request s = (inr resp, queried_store v clock request s) ∧
    status_code resp = HTTP_200_OK ∧
    response_pagination resp = Some pagination ∧
    pagination_page pagination = n ∧
    1 ≤ n ≤ np ∧
    response_user_tasks resp =
      serialize_task <$> take 20 (drop (Z.to_nat ((n - 1) * 20)) qs) ∧
    (qs ≠ [] → response_user_tasks resp ≠ []) ∧
    response_counts resp = Some counts ∧
    total_number_tasks counts = count qs.
Proof.
  intros qs np n. rewrite list_view_run. fold qs.
  pose proof (served_page_bounds qs (GET_page request)) as Hn.
  pose proof (num_pages_bounds qs) as Hb.
  rewrite served_page_asked in Hn. fold np in Hn, Hb. fold n in Hn.
  eexists _, _, _. split; [reflexivity|].
  unfold list_response_of, response_user_tasks, response_pagination,
    response_counts. cbn [body status_code pagination_page total_number_tasks].
  rewrite served_page_asked. fold np n. unfold count in *.
  rewrite slice_page by lia.
  split_and!; try done; try lia.
  intros Hne Hnil. apply fmap_nil_inv in Hnil.
  clearbody n np. clearbody qs.
  assert (Z.to_nat ((n - 1) * 20) < length qs)%nat
    by (destruct qs; [done|]; simpl in *; lia).
  assert (length (take 20 (drop (Z.to_nat ((n - 1) * 20)) qs)) ≠ 0%nat)
    as Hlen by (rewrite length_take, length_drop; lia).
  by rewrite Hnil in Hlen.
Qed.

(** C5. The today view pages through exactly the requesting user's rows
    that are due today or are open and due on an earlier day (of the table
    as it is once the routines are applied), each as often as the table has
    it, in an order where open rows precede completed ones and rows of equal
    status are in ascending due date.  The response is the page asked for
    of that sequence: status 200, the page number the request names when it
    is a valid one and 1 otherwise, the rows of that page (20 of them, fewer
    on the last page, at least one unless the sequence is empty),
    serialized, and the size of the whole sequence as total. *)
Theorem today_view_contents clock request s :
  let u := user_pk (user request) in
  let today := date_today clock in
  let table := tasks (today_tasks clock request s).2 in
  let qs := today_qs u today table in
  let np := num_pages {| object_list := qs; per_page := 20 |} in
  let n := page_asked request np in
  (∀ t, t ∈ qs ↔
        t ∈ table ∧ created_by t = u ∧
        (date_of (due_date t) = today ∨
         (date_of (due_date t) < today ∧ status t = false))) ∧
  qs ≡ₚ filter (λ t, due_today_or_overdue today t ∧ owned_by u t) table ∧
  (∀ i j a b, (i < j)%nat → qs !! i = Some a → qs !! j = Some b →
     (status a = true → status b = true) ∧
     (status a = status b →
      due_date a ≤ due_date b ∧ date_of (due_date a) ≤ date_of (due_date b))) ∧
  ∃ resp pagination counts,
    (today_tasks clock request s).1 = inr resp ∧
    status_code resp = HTTP_200_OK ∧
    response_pagination resp = Some pagination ∧
    pagination_page pagination = n ∧
    1 ≤ n ≤ np ∧
    response_user_tasks resp =
      serialize_task <$> take 20 (drop (Z.to_nat ((n - 1) * 20)) qs) ∧
    (qs ≠ [] → response_user_tasks resp ≠ []) ∧
    response_counts resp = Some counts ∧
    total_number_tasks counts = count qs.
Proof.
  destruct (list_view_serves TodayView clock request s)
    as (resp & pagination & counts & Hrun & Hserved).
  cbn [list_view view_qs] in Hrun, Hserved. rewrite Hrun. cbn [fst snd].
  set (table := tasks (queried_store TodayView clock request s)) in *.
  split_and!.
  - intros t. unfold today_qs. rewrite order_by_Permutation.
    rewrite !list_elem_of_filter. unfold owned_by, due_today_or_overdue.
    tauto.
  - unfold today_qs. rewrite order_by_Permutation.
    by rewrite list_filter_filter.
  - intros i j a b Hij Ha Hb. apply status_due_le_spelled.
    eapply StronglySorted_positions; [apply order_by_sorted|done..].
  - exists resp, pagination, counts. split; [done|]. exact Hserved.
Qed.

End ListViews.

(** ** The mutations *)

Section Mutations.
Context `{Externals}.

Lemma set_tasks_same s : set_tasks s (tasks s) = s.
Proof. by destruct s. Qed.

Lemma tasks_count_run clock url_call request s :
  tasks_count clock url_call request s =
  (inr (qs_counts (view_qs (view_of_url_call url_call) clock
                           (user_pk (user request)) (tasks s))), s).
Proof. done. Qed.

(** Two rows of a table with the same primary key are the same row. *)
Lemma pk_unique (l : list Tasks) x y :
  NoDup (pk <$> l) → x ∈ l → y ∈ l → pk x = pk y → x = y.
Proof.
  induction l as [|z l IH]; intros Hnd Hx Hy Hpk.
  - by apply elem_of_nil in Hx.
  - rewrite fmap_cons in Hnd. apply NoDup_cons in Hnd as [Hz Hnd].
    apply elem_of_cons in Hx as [->|Hx], Hy as [->|Hy]; [done| | |by apply IH].
    + destruct Hz. rewrite Hpk. by apply list_elem_of_fmap_2.
    + destruct Hz. rewrite <- Hpk. by apply list_elem_of_fmap_2.
Qed.

Lemma update_rows_nil l : update_rows [] l = l.
Proof. unfold update_rows. simpl. apply list_fmap_id. Qed.

(** Writing back the selected rows of a table, each changed by [f], changes
    exactly the selected rows. *)
Lemma update_rows_selective (P : Tasks → Prop) `{∀ t, Decision (P t)}
      (f : Tasks → Tasks) l :
  NoDup (pk <$> l) → (∀ x, pk (f x) = pk x) →
  update_rows (f <$> filter P l) l =
  (λ x, if decide (P x) then f x else x) <$> l.
Proof.
  intros Hnd Hf. unfold update_rows. apply Forall_fmap_ext_1, Forall_forall.
  intros x Hx.
  destruct (list_find _ _) as [[i r]|] eqn:Hfind.
  - apply list_find_Some in Hfind as (Hr & Hpk & _).
    apply list_elem_of_lookup_2, list_elem_of_fmap in Hr as (y & -> & Hy).
    apply list_elem_of_filter in Hy as [HPy Hy]. rewrite Hf in Hpk.
    assert (y = x) as -> by by eapply pk_unique.
    by rewrite decide_True.
  - apply list_find_None in Hfind. rewrite Forall_forall in Hfind.
    case_decide as HP; [|done]. destruct (Hfind (f x)).
    + apply list_elem_of_fmap_2, list_elem_of_filter. done.
    + apply Hf.
Qed.

Lemma mapM_row_of_obj (g : Tasks → TaskObj) (f : Tasks → Tasks) l :
  (∀ x, row_of_obj (g x) = Some (f x)) →
  mapM row_of_obj (g <$> l) = Some (f <$> l).
Proof.
  intros Hg. apply mapM_Some, Forall2_fmap, Forall_Forall2_diag.
  by apply Forall_forall.
Qed.

Lemma row_of_obj_of_row t : row_of_obj (obj_of_row t) = Some t.
Proof. by destruct t. Qed.

Lemma update_rows_singleton r l :
  update_rows [r] l = (λ x, if decide (pk x = pk r) then r else x) <$> l.
Proof.
  unfold update_rows. apply Forall_fmap_ext_1, Forall_forall. intros x _.
  simpl. repeat case_decide; simpl; congruence.
Qed.

(** The row [get_object_or_404] finds for a key the user owns. *)
Lemma filter_pk_owned_head u (l : list Tasks) t :
  NoDup (pk <$> l) → t ∈ l → created_by t = u →
  ∃ rest, filter (λ x, pk x = pk t ∧ owned_by u x) l = t :: rest.
Proof.
  intros Hnd Ht Hu.
  destruct (filter _ l) as [|t' rest] eqn:Hf.
  - assert (t ∈ filter (λ x, pk x = pk t ∧ owned_by u x) l) as Hin
      by by apply list_elem_of_filter.
    rewrite Hf in Hin. by apply elem_of_nil in Hin.
  - assert (t' ∈ filter (λ x, pk x = pk t ∧ owned_by u x) l) as Hin
      by (rewrite Hf; left).
    apply list_elem_of_filter in Hin as [[Hpk _] Hin].
    exists rest. f_equal. by eapply pk_unique.
Qed.

Lemma filter_owned_id_in_nil u (l : list Tasks) :
  filter (owned_id_in [] u) l = [].
Proof.
  induction l as [|x l IH]; [done|].
  rewrite filter_cons_False; [done|].
  intros [Hin _]. by apply elem_of_nil in Hin.
Qed.

(** C10. With an empty [task_ids] list the bulk toggle answers 200 with an
    empty task list and leaves the table as it is, where the bulk delete
    and the bulk date update answer 400. *)
Theorem bulk_toggle_empty_list clock request s :
  get (data request) "task_ids" (VList []) = VList [] →
  (∃ counts,
     multiple_task_complete clock request s =
     (inr {| body := TasksBody [] counts; status_code := 200 |}, s)) ∧
  multiple_delete_task clock request s =
    (inr {| body := ErrorBody "task_ids list is empty"; status_code := 400 |},
     s) ∧
  multiple_update_task_dates clock request s =
    (inr {| body := ErrorBody "task_ids list is empty"; status_code := 400 |},
     s).
Proof.
  intros Hids.
  unfold multiple_task_complete, multiple_delete_task,
    multiple_update_task_dates.
  rewrite Hids. split_and!; [|done..].
  unfold evaluate, bulk_update, id_in_lookup. run.
  rewrite filter_owned_id_in_nil. simpl.
  rewrite update_rows_nil, set_tasks_same. by eexists.
Qed.

(** *** Toggling *)

(** The row a toggle writes. *)
Definition toggled (clock : Clock) (t : Tasks) : Tasks :=
  {| pk := pk t; created_by := created_by t; task_title := task_title t;
     task_details := task_details t; due_date := due_date t;
     status := negb (status t);
     done_date := if status t then None else Some (timezone_now_date clock);
     source_routine := source_routine t |}.

Lemma row_of_toggle clock t :
  row_of_obj (toggle clock (obj_of_row t)) = Some (toggled clock t).
Proof. unfold row_of_obj, toggle, toggled. simpl. by destruct (status t). Qed.

Lemma task_complete_run clock request t s :
  wf_store s → t ∈ tasks s → created_by t = user_pk (user request) →
  ∃ counts,
    task_complete clock request (pk t) s =
    (inr {| body := TaskBody (serialize_task (toggled clock t)) counts;
            status_code := 200 |},
     set_tasks s ((λ x, if decide (pk x = pk t) then toggled clock t else x)
                    <$> tasks s)).
Proof.
  intros [Hnd _] Ht Hu.
  destruct (filter_pk_owned_head _ _ _ Hnd Ht Hu) as [rest Hf].
  unfold task_complete, get_object_or_404, save. run. rewrite Hf.
  rewrite row_of_toggle. simpl. rewrite update_rows_singleton. by eexists.
Qed.

Lemma multiple_task_complete_run clock request task_ids ids s :
  wf_store s →
  get (data request) "task_ids" (VList []) = VList task_ids →
  mapM id_prep task_ids = Some ids →
  ∃ counts,
    multiple_task_complete clock request s =
    (inr {| body := TasksBody
              (serialize_task <$>
                 (toggled clock <$>
                    filter (owned_id_in ids (user_pk (user request)))
                           (tasks s))) counts;
            status_code := 200 |},
     set_tasks s
       ((λ x, if decide (owned_id_in ids (user_pk (user request)) x)
              then toggled clock x else x) <$> tasks s)).
Proof.
  intros [Hnd _] Hids Hprep.
  unfold multiple_task_complete, evaluate, bulk_update, id_in_lookup.
  rewrite Hids, Hprep. run.
  rewrite (mapM_row_of_obj (toggle clock ∘ obj_of_row) (toggled clock))
    by apply row_of_toggle.
  simpl. rewrite update_rows_selective by done. by eexists.
Qed.

(** C6. On a table with unique primary keys: toggling a task of the
    requesting user writes that row with the completed flag flipped, the
    completion date set to today when it becomes complete and cleared when
    it becomes incomplete, and nothing else changed; the bulk toggle does
    this to each selected row of the user, from that row's own state, and
    leaves the other rows as they are. *)
Theorem toggle_complete_flips clock request s :
  wf_store s →
  (∀ t, status (toggled clock t) = negb (status t) ∧
        (status t = false →
         done_date (toggled clock t) = Some (timezone_now_date clock)) ∧
        (status t = true → done_date (toggled clock t) = None) ∧
        pk (toggled clock t) = pk t ∧
        created_by (toggled clock t) = created_by t ∧
        task_title (toggled clock t) = task_title t ∧
        task_details (toggled clock t) = task_details t ∧
        due_date (toggled clock t) = due_date t ∧
        source_routine (toggled clock t) = source_routine t) ∧
  (∀ t, t ∈ tasks s → created_by t = user_pk (user request) →
     ∃ resp s',
       task_complete clock request (pk t) s = (inr resp, s') ∧
       status_code resp = 200 ∧
       tasks s' = (λ x, if decide (pk x = pk t) then toggled clock t else x)
                    <$> tasks s) ∧
  (∀ task_ids ids,
     get (data request) "task_ids" (VList []) = VList task_ids →
     mapM id_prep task_ids = Some ids →
     ∃ resp s',
       multiple_task_complete clock request s = (inr resp, s') ∧
       status_code resp = 200 ∧
       tasks s' = (λ x, if decide (pk x ∈ ids ∧
                                   created_by x = user_pk (user request))
                        then toggled clock x else x) <$> tasks s).
Proof.
  intros Hwf. split_and!.
  - intros t. unfold toggled. simpl. split_and!; try done.
    + by intros ->.
    + by intros ->.
  - intros t Ht Hu.
    destruct (task_complete_run clock request t s Hwf Ht Hu) as [c Hrun].
    rewrite Hrun. by eexists _, _.
  - intros task_ids ids Hids Hprep.
    destruct (multiple_task_complete_run clock request _ _ s Hwf Hids Hprep)
      as [c Hrun].
    rewrite Hrun. by eexists _, _.
Qed.

(** *** Creating *)

Lemma date_of_datetime_of_date d : date_of (datetime_of_date d) = d.
Proof. unfold date_of, datetime_of_date, seconds_per_day. by apply Z.div_mul. Qed.

(** C8. A request without a title (absent or null) creates nothing and
    gets the generic error; a request with a title appends one open task of
    the requesting user with that title, whose due date is the parsed one,
    and today (midnight) when the request has no due date or the parser
    fails on it. *)
Theorem add_task_title_and_default_date clock request s :
  (get (data request) "task_title" VNone = VNone →
   add_task clock request s = (inr generic_error, s)) ∧
  (∀ title,
     char_value (get (data request) "task_title" VNone) = Some title →
     ∃ counts t,
       add_task clock request s =
       (inr {| body := TaskBody (serialize_task t) counts;
               status_code := 201 |},
        {| tasks := tasks s ++ [t]; next_pk := next_pk s + 1;
           routines := routines s |}) ∧
       pk t = next_pk s ∧
       created_by t = user_pk (user request) ∧
       task_title t = title ∧ status t = false ∧ done_date t = None ∧
       (∀ d, _parse_date_input (get (data request) "due_date" VNone) = Some d →
             due_date t = d) ∧
       (_parse_date_input (get (data request) "due_date" VNone) = None →
        due_date t = datetime_of_date (timezone_now_date clock) ∧
        date_of (due_date t) = timezone_now_date clock)).
Proof.
  split.
  - intros Htitle. unfold add_task, create. by rewrite Htitle.
  - intros title Htitle. unfold add_task, create. rewrite Htitle. run.
    eexists _, _. split; [reflexivity|]. simpl. split_and!; try done.
    + by intros d ->.
    + intros ->. simpl. by rewrite date_of_datetime_of_date.
Qed.

(** *** Updating *)

Lemma row_of_set_due_date_None o : row_of_obj (set_due_date None o) = None.
Proof. unfold row_of_obj. simpl. by destruct (o_task_title o). Qed.

(** C3. A bulk date update whose request carries a due date the parser
    fails on changes no row: the response is an error (the generic one as
    soon as a targeted task is found) and the table is as before. *)
Theorem bulk_date_update_unparseable clock request s v :
  data request !! "due_date" = Some v → v ≠ VNone →
  _parse_date_input v = None →
  ∃ resp,
    multiple_update_task_dates clock request s = (inr resp, s) ∧
    success resp = false ∧ status_code resp ≠ 200 ∧
    (∀ task_ids ids,
       get (data request) "task_ids" (VList []) = VList task_ids →
       mapM id_prep task_ids = Some ids →
       filter (owned_id_in ids (user_pk (user request))) (tasks s) ≠ [] →
       resp = generic_error).
Proof.
  intros Hdue Hv Hparse. unfold multiple_update_task_dates.
  assert (get (data request) "due_date" VNone = v) as ->
    by (unfold get; by rewrite Hdue).
  destruct (get (data request) "task_ids" (VList [])) as [| | | |task_ids];
    try (eexists; split_and!; [reflexivity|done..]).
  destruct task_ids as [|i task_ids].
  { eexists; split_and!; [reflexivity|done..|].
    intros ?? [= <-] [= <-] Hne. by rewrite filter_owned_id_in_nil in Hne. }
  unfold id_in_lookup, evaluate, bulk_update.
  destruct (mapM id_prep (i :: task_ids)) as [ids|] eqn:Hprep;
    [|eexists; split_and!; [reflexivity|done..]].
  run.
  destruct (filter _ (tasks s)) as [|t rest] eqn:Hf.
  - eexists; split_and!; [reflexivity|done..|].
    intros ?? [= <-] Hprep' Hne. rewrite Hprep in Hprep'. by simplify_eq.
  - destruct v; try done; simpl; rewrite Hparse, row_of_set_due_date_None;
      simpl; (eexists; split_and!; [reflexivity|done..]).
Qed.

Lemma update_task_run clock request t s :
  wf_store s → t ∈ tasks s → created_by t = user_pk (user request) →
  update_task clock request (pk t) s =
  match row_of_obj (assign_fields request (obj_of_row t)) with
  | None => (inr generic_error, s)
  | Some r =>
      let s' := set_tasks s ((λ x, if decide (pk x = pk r) then r else x)
                               <$> tasks s) in
      (inr {| body := TaskBody (serialize_task r)
                (qs_counts
                   (view_qs (view_of_url_call
                               (get (data request) "url_call" (VStr "all")))
                            clock (user_pk (user request)) (tasks s')));
              status_code := 200 |}, s')
  end.
Proof.
  intros [Hnd _] Ht Hu.
  destruct (filter_pk_owned_head _ _ _ Hnd Ht Hu) as [rest Hf].
  unfold update_task, get_object_or_404, save. run. rewrite Hf.
  destruct (row_of_obj _) as [r|]; [|done].
  simpl. by rewrite update_rows_singleton.
Qed.

(** What [assign_fields] keeps of a row that it can write. *)
Lemma assign_fields_row request t r :
  row_of_obj (assign_fields request (obj_of_row t)) = Some r →
  pk r = pk t ∧ created_by r = created_by t ∧ status r = status t ∧
  done_date r = done_date t ∧ source_routine r = source_routine t ∧
  (data request !! "task_title" = None → task_title r = task_title t) ∧
  (data request !! "task_details" = None → task_details r = task_details t) ∧
  (data request !! "due_date" = None → due_date r = due_date t).
Proof.
  unfold row_of_obj, assign_fields, get. cbn -[lookup].
  destruct (char_value _) as [title|] eqn:Htitle; [|done].
  destruct (match match data request !! "due_date" with _ => _ end with
            | VNone => _ | _ => _ end) as [due|] eqn:Hdue; [|done].
  intros [= <-]. simpl. split_and!; try done.
  - intros Hnone. rewrite Hnone in Htitle. simpl in Htitle. congruence.
  - intros Hnone. rewrite Hnone. by destruct (task_details t).
  - intros Hnone. rewrite Hnone in Hdue. congruence.
Qed.

Lemma assign_fields_unparseable request t v :
  data request !! "due_date" = Some v → v ≠ VNone →
  _parse_date_input v = None →
  row_of_obj (assign_fields request (obj_of_row t)) = None.
Proof.
  intros Hdue Hv Hparse. unfold row_of_obj, assign_fields, get.
  cbn -[lookup]. rewrite Hdue.
  destruct (char_value _); [|done].
  destruct v; try done; by rewrite Hparse.
Qed.

(** C4. Updating a task of the requesting user, on a table with unique
    primary keys: a request whose due date the parser fails on gets the
    generic error and changes nothing, as does every update that does not
    answer 200; an update that answers 200 rewrites that one row, keeping
    its key, owner, completion state and dates, and keeping the title, the
    details and the due date when the request omits them. *)
Theorem update_task_partial clock request s t :
  wf_store s → t ∈ tasks s → created_by t = user_pk (user request) →
  ∃ resp s',
    update_task clock request (pk t) s = (inr resp, s') ∧
    ((∃ v, data request !! "due_date" = Some v ∧ v ≠ VNone ∧
           _parse_date_input v = None) →
     resp = generic_error ∧ s' = s) ∧
    (status_code resp ≠ 200 → s' = s) ∧
    (status_code resp = 200 →
     ∃ t',
       tasks s' = (λ x, if decide (pk x = pk t) then t' else x) <$> tasks s ∧
       pk t' = pk t ∧ created_by t' = created_by t ∧
       status t' = status t ∧ done_date t' = done_date t ∧
       source_routine t' = source_routine t ∧
       (data request !! "task_title" = None → task_title t' = task_title t) ∧
       (data request !! "task_details" = None →
        task_details t' = task_details t) ∧
       (data request !! "due_date" = None → due_date t' = due_date t)).
Proof.
  intros Hwf Ht Hu. rewrite update_task_run by done.
  destruct (row_of_obj _) as [r|] eqn:Hrow.
  - eexists _, _. split; [reflexivity|]. split_and!.
    + intros (v & Hdue & Hv & Hparse).
      by rewrite (assign_fields_unparseable _ _ _ Hdue Hv Hparse) in Hrow.
    + done.
    + intros _. exists r.
      destruct (assign_fields_row _ _ _ Hrow) as (Hpk & ?).
      rewrite <- Hpk. done.
  - eexists _, _. split; [reflexivity|]. split_and!; done.
Qed.

(** *** The table invariant is kept *)

(** The keys of [s'] are among those of [s], and the sequence is where it
    was. *)
Definition keys_within (s s' : Store) : Prop :=
  next_pk s' = next_pk s ∧ pk <$> tasks s' `sublist_of` pk <$> tasks s.

Lemma keys_within_refl s : keys_within s s.
Proof. by split. Qed.

Lemma keys_within_wf s s' : keys_within s s' → wf_store s → wf_store s'.
Proof.
  intros [Hnext Hsub] [Hnd Hlt]. split.
  - by eapply sublist_NoDup.
  - rewrite Hnext. rewrite Forall_forall in Hlt. apply Forall_forall.
    intros k Hk. apply Hlt. by eapply elem_of_sublist.
Qed.

Lemma update_rows_keys rows l : pk <$> update_rows rows l = pk <$> l.
Proof.
  unfold update_rows. rewrite <- list_fmap_compose.
  apply Forall_fmap_ext_1, Forall_forall. intros x _. simpl.
  destruct (list_find _ _) as [[i r]|] eqn:Hfind; [|done].
  by apply list_find_Some in Hfind as (_ & Hpk & _).
Qed.

Lemma keys_within_update_rows rows s :
  keys_within s (set_tasks s (update_rows rows (tasks s))).
Proof. split; [done|]. simpl. by rewrite update_rows_keys. Qed.

Lemma keys_within_filter (P : Tasks → Prop) `{∀ t, Decision (P t)} s :
  keys_within s (set_tasks s (filter P (tasks s))).
Proof. split; [done|]. simpl. apply fmap_sublist, sublist_filter. Qed.

(** No mutation breaks the uniqueness of the primary key. *)
Lemma mutate_keeps_wf op clock request s :
  wf_store s → wf_store (mutate op clock request s).2.
Proof.
  apply keys_within_wf.
  destruct op; unfold mutate, update_task, multiple_update_task_dates,
    delete_task, multiple_delete_task, task_complete, multiple_task_complete,
    get_object_or_404, save, bulk_update, delete_where, id_in_lookup,
    evaluate; run;
    repeat case_match; simplify_eq/=;
    auto using keys_within_refl, keys_within_update_rows, keys_within_filter.
Qed.

(** A row appended under the next key of the sequence keeps it too. *)
Lemma wf_store_append s t :
  wf_store s → pk t = next_pk s →
  wf_store {| tasks := tasks s ++ [t]; next_pk := next_pk s + 1;
              routines := routines s |}.
Proof.
  intros [Hnd Hlt] Hpk. split; simpl.
  - rewrite fmap_app. apply NoDup_app.
    split_and!; [done| |apply NoDup_singleton].
    intros k Hk ->%list_elem_of_singleton. rewrite Forall_forall in Hlt.
    specialize (Hlt _ Hk). simpl in Hlt. lia.
  - rewrite fmap_app. apply Forall_app. split.
    + eapply Forall_impl; [done|]. simpl. lia.
    + apply Forall_singleton. simpl. lia.
Qed.

Lemma add_task_keeps_wf clock request s :
  wf_store s → wf_store (add_task clock request s).2.
Proof.
  intros Hwf. unfold add_task, create.
  destruct (char_value _); [|done]. run. by apply wf_store_append.
Qed.

Lemma Materialize_keeps_wf owner date s :
  wf_store s → wf_store (Materialize owner date s).
Proof.
  unfold Materialize. generalize (filter (λ r, r_owner r = owner) (routines s)).
  intros rs. revert s. induction rs as [|r rs IH]; intros s Hwf; [done|].
  simpl. apply IH. unfold materialize_one.
  destruct (fires_on _ _); [|done]. case_decide; [done|].
  by apply wf_store_append.
Qed.

(** *** Owner isolation *)

(** The rows of a user, and the rows of the others. *)
Definition own (u : Z) (l : list Tasks) : list Tasks := filter (owned_by u) l.
Definition others (u : Z) (l : list Tasks) : list Tasks :=
  filter (λ t, ¬ owned_by u t) l.

(** Rewriting rows selected among the user's rows commutes with taking the
    user's rows and does not touch the others. *)
Lemma selective_map_own u (P : Tasks → Prop) `{∀ t, Decision (P t)} f l :
  (∀ x, P x → owned_by u x) → (∀ x, P x → owned_by u (f x)) →
  own u ((λ x, if decide (P x) then f x else x) <$> l) =
  (λ x, if decide (P x) then f x else x) <$> own u l.
Proof.
  intros HP Hf. unfold own. induction l as [|x l IH]; [done|].
  rewrite fmap_cons. destruct (decide (owned_by u x)) as [Hx|Hx].
  - rewrite (filter_cons_True _ x) by done. rewrite fmap_cons, <- IH.
    apply filter_cons_True. case_decide; auto.
  - rewrite (filter_cons_False _ x) by done. rewrite <- IH.
    apply filter_cons_False. case_decide; [|done]. by destruct Hx; auto.
Qed.

Lemma selective_map_others u (P : Tasks → Prop) `{∀ t, Decision (P t)} f l :
  (∀ x, P x → owned_by u x) → (∀ x, P x → owned_by u (f x)) →
  others u ((λ x, if decide (P x) then f x else x) <$> l) = others u l.
Proof.
  intros HP Hf. unfold others. induction l as [|x l IH]; [done|].
  rewrite fmap_cons. destruct (decide (P x)) as [Hx|Hx].
  - rewrite (filter_cons_False _ x) by (intros Hn; apply Hn; auto).
    rewrite (filter_cons_False _ (f x)) by (intros Hn; apply Hn; auto).
    exact IH.
  - destruct (decide (owned_by u x)) as [Ho|Ho].
    + rewrite !(filter_cons_False _ x) by (intros Hn; by apply Hn).
      exact IH.
    + rewrite !(filter_cons_True _ x) by done. by rewrite IH.
Qed.

(** Deleting rows selected among the user's rows, likewise. *)
Lemma selective_delete_own u (P : Tasks → Prop) `{∀ t, Decision (P t)} l :
  own u (filter (λ x, ¬ P x) l) = filter (λ x, ¬ P x) (own u l).
Proof.
  unfold own. induction l as [|x l IH]; [done|].
  destruct (decide (P x)), (decide (owned_by u x));
    repeat first [ rewrite (filter_cons_True _ x) by auto
                 | rewrite (filter_cons_False _ x) by auto ];
    by rewrite IH.
Qed.

Lemma selective_delete_others u (P : Tasks → Prop) `{∀ t, Decision (P t)} l :
  (∀ x, P x → owned_by u x) →
  others u (filter (λ x, ¬ P x) l) = others u l.
Proof.
  intros HP. unfold others. induction l as [|x l IH]; [done|].
  destruct (decide (P x)) as [Hx|Hx].
  - rewrite (filter_cons_False _ x) by auto.
    rewrite (filter_cons_False _ x) by (intros Hn; apply Hn; auto). done.
  - rewrite (filter_cons_True _ x) by auto.
    destruct (decide (owned_by u x)).
    + rewrite !(filter_cons_False _ x) by (intros Hn; by apply Hn). done.
    + rewrite !(filter_cons_True _ x) by done. by rewrite IH.
Qed.

(** The reads of the mutations see the user's rows only. *)
Lemma filter_pk_owned_own u id (l : list Tasks) :
  filter (λ x, pk x = id ∧ owned_by u x) l = filter (λ x, pk x = id) (own u l).
Proof. unfold own. by rewrite list_filter_filter. Qed.

Lemma filter_owned_id_in_own u ids (l : list Tasks) :
  filter (owned_id_in ids u) l = filter (id_in ids) (own u l).
Proof. unfold own, owned_id_in. by rewrite list_filter_filter. Qed.

Lemma view_qs_own v clock u l :
  view_qs v clock u l = view_qs v clock u (own u l).
Proof.
  unfold own. destruct v; unfold view_qs, today_qs, next_week_qs, all_qs.
  - by rewrite (list_filter_filter_r (owned_by u) (owned_by u)) by done.
  - f_equal. rewrite list_filter_filter. apply list_filter_iff.
    intros x. tauto.
  - by rewrite (list_filter_filter_r (owned_by u) (owned_by u)) by done.
Qed.

Lemma own_NoDup u (l : list Tasks) : NoDup (pk <$> l) → NoDup (pk <$> own u l).
Proof.
  intros Hnd. eapply sublist_NoDup; [done|].
  apply fmap_sublist, sublist_filter.
Qed.

Lemma elem_of_own u (l : list Tasks) t :
  t ∈ own u l ↔ created_by t = u ∧ t ∈ l.
Proof. unfold own. by rewrite list_elem_of_filter. Qed.

(** On a table with unique keys, the row with the key of one of the user's
    rows is that row. *)
Lemma pk_owned_iff u (l : list Tasks) t x :
  NoDup (pk <$> l) → t ∈ own u l → x ∈ l →
  pk x = pk t ↔ pk x = pk t ∧ owned_by u x.
Proof.
  intros Hnd [Hu Ht]%elem_of_own Hx. split; [|tauto].
  intros Hpk. split; [done|].
  by rewrite (pk_unique l x t Hnd Hx Ht Hpk).
Qed.

(** Writing one row of the user is seen by the user alone. *)
Lemma write_row_isolated u (l1 l2 : list Tasks) t r :
  NoDup (pk <$> l1) → NoDup (pk <$> l2) → own u l1 = own u l2 →
  t ∈ own u l2 → pk r = pk t → created_by r = u →
  own u (update_rows [r] l1) = own u (update_rows [r] l2) ∧
  others u (update_rows [r] l1) = others u l1.
Proof.
  intros Hnd1 Hnd2 Hown Ht Hpk Hr.
  assert (∀ l, NoDup (pk <$> l) → t ∈ own u l →
            update_rows [r] l =
            (λ x, if decide (pk x = pk t ∧ owned_by u x) then r else x) <$> l)
    as Hsel.
  { intros l Hnd Htl. rewrite update_rows_singleton.
    apply Forall_fmap_ext_1, Forall_forall. intros x Hx. rewrite Hpk.
    pose proof (pk_owned_iff u l t x Hnd Htl Hx).
    repeat case_decide; tauto. }
  rewrite !Hsel by (done || by rewrite Hown).
  rewrite !(selective_map_own u (λ x, pk x = pk t ∧ owned_by u x) (λ _, r))
    by (done || tauto).
  rewrite (selective_map_others u (λ x, pk x = pk t ∧ owned_by u x) (λ _, r))
    by (done || tauto).
  by rewrite Hown.
Qed.

Lemma filter_iff_on {A} (P1 P2 : A → Prop)
      `{∀ x, Decision (P1 x), ∀ x, Decision (P2 x)} (l : list A) :
  (∀ x, x ∈ l → P1 x ↔ P2 x) → filter P1 l = filter P2 l.
Proof.
  induction l as [|x l IH]; intros Hiff; [done|].
  rewrite !filter_cons, IH by (intros; apply Hiff; by right).
  pose proof (Hiff x (list_elem_of_here x l)).
  repeat case_decide; tauto.
Qed.

(** Deleting one row of the user, likewise. *)
Lemma delete_row_isolated u (l1 l2 : list Tasks) t :
  NoDup (pk <$> l1) → NoDup (pk <$> l2) → own u l1 = own u l2 →
  t ∈ own u l2 →
  own u (filter (λ x, ¬ pk x = pk t) l1) =
    own u (filter (λ x, ¬ pk x = pk t) l2) ∧
  others u (filter (λ x, ¬ pk x = pk t) l1) = others u l1.
Proof.
  intros Hnd1 Hnd2 Hown Ht.
  assert (∀ l, NoDup (pk <$> l) → t ∈ own u l →
            filter (λ x, ¬ pk x = pk t) l =
            filter (λ x, ¬ (pk x = pk t ∧ owned_by u x)) l) as Hsel.
  { intros l Hnd Htl. apply filter_iff_on. intros x Hx.
    pose proof (pk_owned_iff u l t x Hnd Htl Hx). tauto. }
  rewrite !Hsel by (done || by rewrite Hown).
  rewrite !(selective_delete_own u (λ x, pk x = pk t ∧ owned_by u x)).
  rewrite (selective_delete_others u (λ x, pk x = pk t ∧ owned_by u x))
    by tauto.
  by rewrite Hown.
Qed.

(** The bulk write and the bulk delete, likewise. *)
Lemma write_rows_isolated u ids f (l1 l2 : list Tasks) :
  NoDup (pk <$> l1) → NoDup (pk <$> l2) → own u l1 = own u l2 →
  (∀ x, pk (f x) = pk x) → (∀ x, created_by (f x) = created_by x) →
  own u (update_rows (f <$> filter (owned_id_in ids u) l1) l1) =
    own u (update_rows (f <$> filter (owned_id_in ids u) l2) l2) ∧
  others u (update_rows (f <$> filter (owned_id_in ids u) l1) l1) =
    others u l1.
Proof.
  intros Hnd1 Hnd2 Hown Hpk Hf.
  rewrite !update_rows_selective by done.
  rewrite !(selective_map_own u (owned_id_in ids u) f),
    (selective_map_others u (owned_id_in ids u) f);
    try (by intros x [_ Hx]); try (intros x [_ Hx]; unfold owned_by in *;
                                   by rewrite Hf).
  by rewrite Hown.
Qed.

Lemma delete_rows_isolated u ids (l1 l2 : list Tasks) :
  own u l1 = own u l2 →
  own u (filter (λ x, ¬ owned_id_in ids u x) l1) =
    own u (filter (λ x, ¬ owned_id_in ids u x) l2) ∧
  others u (filter (λ x, ¬ owned_id_in ids u x) l1) = others u l1.
Proof.
  intros Hown.
  rewrite !(selective_delete_own u (owned_id_in ids u)).
  rewrite (selective_delete_others u (owned_id_in ids u))
    by (by intros x [_ Hx]).
  by rewrite Hown.
Qed.

(** A view is isolated for a user when its response and what it does to
    the user's rows depend on the user's rows only, and the rows of the
    others are left as they are. *)
Definition isolated (u : Z) (m : M Response) : Prop :=
  ∀ s1 s2, wf_store s1 → wf_store s2 → own u (tasks s1) = own u (tasks s2) →
    (m s1).1 = (m s2).1 ∧
    own u (tasks (m s1).2) = own u (tasks (m s2).2) ∧
    others u (tasks (m s1).2) = others u (tasks s1).

Lemma filter_head_own u (P : Tasks → Prop) `{∀ t, Decision (P t)} l t rest :
  filter P (own u l) = t :: rest → t ∈ own u l ∧ P t.
Proof.
  intros Hf. assert (t ∈ filter P (own u l)) as Hin by (rewrite Hf; left).
  apply list_elem_of_filter in Hin. tauto.
Qed.

Lemma update_task_isolated clock request task_id :
  isolated (user_pk (user request)) (update_task clock request task_id).
Proof.
  intros s1 s2 [Hnd1 _] [Hnd2 _] Hown.
  unfold update_task, get_object_or_404, save. run.
  rewrite !filter_pk_owned_own, Hown.
  destruct (filter _ (own _ (tasks s2))) as [|t rest] eqn:Hf; [done|].
  apply filter_head_own in Hf as [Ht Hpk].
  destruct (row_of_obj _) as [r|] eqn:Hr; [|done]. simpl.
  apply assign_fields_row in Hr as (Hpkr & Hur & _).
  apply elem_of_own in Ht as Ht'. destruct Ht' as [Hu _].
  destruct (write_row_isolated _ _ _ t r Hnd1 Hnd2 Hown Ht) as [Ho Hx];
    [done|congruence|].
  split_and!; [|done..].
  do 4 f_equal.
  rewrite (view_qs_own _ _ _ (update_rows _ (tasks s1))).
  rewrite (view_qs_own _ _ _ (update_rows _ (tasks s2))).
  by rewrite Ho.
Qed.

Lemma task_complete_isolated clock request task_id :
  isolated (user_pk (user request)) (task_complete clock request task_id).
Proof.
  intros s1 s2 [Hnd1 _] [Hnd2 _] Hown.
  unfold task_complete, get_object_or_404, save. run.
  rewrite !filter_pk_owned_own, Hown.
  destruct (filter _ (own _ (tasks s2))) as [|t rest] eqn:Hf; [done|].
  apply filter_head_own in Hf as [Ht Hpk].
  rewrite row_of_toggle. simpl.
  apply elem_of_own in Ht as Ht'. destruct Ht' as [Hu _].
  destruct (write_row_isolated _ _ _ t (toggled clock t) Hnd1 Hnd2 Hown Ht)
    as [Ho Hx]; [done..|].
  split_and!; [|done..].
  do 4 f_equal.
  rewrite (view_qs_own _ _ _ (update_rows _ (tasks s1))).
  rewrite (view_qs_own _ _ _ (update_rows _ (tasks s2))).
  by rewrite Ho.
Qed.

Lemma delete_task_isolated clock request task_id :
  isolated (user_pk (user request)) (delete_task clock request task_id).
Proof.
  intros s1 s2 [Hnd1 _] [Hnd2 _] Hown.
  unfold delete_task, get_object_or_404, delete_where. run.
  rewrite !filter_pk_owned_own, Hown.
  destruct (filter _ (own _ (tasks s2))) as [|t rest] eqn:Hf; [done|].
  apply filter_head_own in Hf as [Ht Hpk]. simpl.
  destruct (delete_row_isolated _ _ _ t Hnd1 Hnd2 Hown Ht) as [Ho Hx].
  split_and!; [|done..].
  do 4 f_equal.
  rewrite (view_qs_own _ _ _ (filter _ (tasks s1))).
  rewrite (view_qs_own _ _ _ (filter _ (tasks s2))).
  by rewrite Ho.
Qed.

Lemma multiple_delete_task_isolated clock request :
  isolated (user_pk (user request)) (multiple_delete_task clock request).
Proof.
  intros s1 s2 [Hnd1 _] [Hnd2 _] Hown.
  unfold multiple_delete_task, id_in_lookup, delete_where.
  destruct (get (data request) "task_ids" (VList [])) as [| | | |task_ids];
    try done.
  destruct task_ids as [|i task_ids]; [done|].
  destruct (mapM id_prep (i :: task_ids)) as [ids|]; [|done]. run.
  destruct (delete_rows_isolated (user_pk (user request)) ids _ _ Hown)
    as [Ho Hx].
  split_and!; [|done..].
  do 4 f_equal.
  rewrite (view_qs_own _ _ _ (filter _ (tasks s1))).
  rewrite (view_qs_own _ _ _ (filter _ (tasks s2))).
  by rewrite Ho.
Qed.

Lemma multiple_task_complete_isolated clock request :
  isolated (user_pk (user request)) (multiple_task_complete clock request).
Proof.
  intros s1 s2 [Hnd1 _] [Hnd2 _] Hown.
  unfold multiple_task_complete, id_in_lookup, evaluate, bulk_update.
  destruct (get (data request) "task_ids" (VList [])) as [| | | |task_ids];
    try done.
  destruct (mapM id_prep task_ids) as [ids|]; [|done]. run.
  rewrite !(mapM_row_of_obj (toggle clock ∘ obj_of_row) (toggled clock))
    by apply row_of_toggle.
  simpl.
  destruct (write_rows_isolated (user_pk (user request)) ids (toggled clock)
              _ _ Hnd1 Hnd2 Hown) as [Ho Hx]; [done..|].
  assert (filter (owned_id_in ids (user_pk (user request))) (tasks s1) =
          filter (owned_id_in ids (user_pk (user request))) (tasks s2))
    as Hsel by by rewrite !filter_owned_id_in_own, Hown.
  split_and!; [|done..].
  rewrite (view_qs_own _ _ _ (update_rows _ (tasks s1))).
  rewrite (view_qs_own _ _ _ (update_rows _ (tasks s2))).
  by rewrite Ho, Hsel.
Qed.

(** The row a date update writes. *)
Definition dated (due : Z) (t : Tasks) : Tasks :=
  {| pk := pk t; created_by := created_by t; task_title := task_title t;
     task_details := task_details t; due_date := due;
     status := status t; done_date := done_date t;
     source_routine := source_routine t |}.

Lemma row_of_set_due_date due t :
  row_of_obj (set_due_date (Some due) (obj_of_row t)) = Some (dated due t).
Proof. done. Qed.

Lemma multiple_update_task_dates_isolated clock request :
  isolated (user_pk (user request)) (multiple_update_task_dates clock request).
Proof.
  intros s1 s2 [Hnd1 _] [Hnd2 _] Hown.
  unfold multiple_update_task_dates, id_in_lookup, evaluate, bulk_update.
  destruct (get (data request) "task_ids" (VList [])) as [| | | |task_ids];
    try done.
  destruct task_ids as [|i task_ids]; [done|].
  destruct (mapM id_prep (i :: task_ids)) as [ids|]; [|done]. run.
  assert (filter (owned_id_in ids (user_pk (user request))) (tasks s1) =
          filter (owned_id_in ids (user_pk (user request))) (tasks s2))
    as Hsel by by rewrite !filter_owned_id_in_own, Hown.
  destruct (write_rows_isolated (user_pk (user request)) ids
              (dated (default 0 (_parse_date_input
                                   (get (data request) "due_date" VNone))))
              _ _ Hnd1 Hnd2 Hown) as [Ho Hx]; [done..|].
  rewrite Hsel in Ho, Hx |- *.
  destruct (filter _ (tasks s2)) as [|t rest] eqn:Hf; [done|].
  assert (qs_counts (view_qs (view_of_url_call
                                (get (data request) "url_call" (VStr "all")))
                             clock (user_pk (user request)) (tasks s1)) =
          qs_counts (view_qs (view_of_url_call
                                (get (data request) "url_call" (VStr "all")))
                             clock (user_pk (user request)) (tasks s2)))
    as Hcounts.
  { rewrite (view_qs_own _ _ _ (tasks s1)), (view_qs_own _ _ _ (tasks s2)).
    by rewrite Hown. }
  destruct (_parse_date_input _) as [due|] eqn:Hparse.
  - rewrite (mapM_row_of_obj (set_due_date (Some due) ∘ obj_of_row) (dated due))
      by apply row_of_set_due_date.
    simpl in Ho, Hx.
    destruct (get (data request) "due_date" VNone); simpl;
      (split_and!; [|done..]);
      rewrite ?(view_qs_own _ _ _ (update_rows _ (tasks s1))),
        ?(view_qs_own _ _ _ (update_rows _ (tasks s2))), ?Ho, ?Hcounts; done.
  - destruct (get (data request) "due_date" VNone); simpl;
      (split_and!; [|done..]); by rewrite ?Hcounts.
Qed.

(** Every mutation is isolated for the requesting user. *)
Lemma mutate_isolated op clock request :
  isolated (user_pk (user request)) (mutate op clock request).
Proof.
  destruct op; simpl.
  - apply update_task_isolated.
  - apply multiple_update_task_dates_isolated.
  - apply delete_task_isolated.
  - apply multiple_delete_task_isolated.
  - apply task_complete_isolated.
  - apply multiple_task_complete_isolated.
Qed.

Lemma filter_none_keeps_all {A} (P : A → Prop) `{∀ x, Decision (P x)} l :
  filter P l = [] → filter (λ x, ¬ P x) l = l.
Proof.
  induction l as [|x l IH]; [done|]. rewrite !filter_cons.
  destruct (decide (P x)); [done|]. intros Hf.
  rewrite decide_True by done. by rewrite IH.
Qed.

(** C7, as the code has it. On a table with unique primary keys, a mutation
    (update, delete, toggle, single or bulk) by a user leaves the rows of
    the other users as they are, and its response and what it does to the
    user's own rows are the same on any table with the same rows of that
    user: a task of another user is handled like a task that does not
    exist.  In particular, when none of the listed ids is a task of the
    user, the bulk delete and the bulk toggle answer 200 and the bulk date
    update answers 404, all three leaving the table as it is. *)
Theorem mutation_owner_isolation op clock request s :
  wf_store s →
  let u := user_pk (user request) in
  others u (tasks (mutate op clock request s).2) = others u (tasks s) ∧
  (∀ s2, wf_store s2 → own u (tasks s2) = own u (tasks s) →
     (mutate op clock request s2).1 = (mutate op clock request s).1 ∧
     own u (tasks (mutate op clock request s2).2) =
       own u (tasks (mutate op clock request s).2)) ∧
  (∀ i task_ids ids,
     get (data request) "task_ids" (VList []) = VList (i :: task_ids) →
     mapM id_prep (i :: task_ids) = Some ids →
     filter (owned_id_in ids u) (tasks s) = [] →
     (∃ counts,
        multiple_delete_task clock request s =
        (inr {| body := MessageBody "Tasks deleted" counts;
                status_code := 200 |}, s)) ∧
     (∃ counts,
        multiple_task_complete clock request s =
        (inr {| body := TasksBody [] counts; status_code := 200 |}, s)) ∧
     multiple_update_task_dates clock request s =
       (inr {| body := ErrorBody "No tasks found"; status_code := 404 |}, s)).
Proof.
  intros Hwf u. split_and!.
  - by destruct (mutate_isolated op clock request s s Hwf Hwf eq_refl)
      as (_ & _ & ?).
  - intros s2 Hwf2 Hown.
    by destruct (mutate_isolated op clock request s2 s Hwf2 Hwf Hown)
      as (? & ? & _).
  - intros i task_ids ids Hids Hprep Hnone.
    unfold multiple_delete_task, multiple_task_complete,
      multiple_update_task_dates, id_in_lookup, evaluate, bulk_update,
      delete_where.
    rewrite Hids, Hprep. run. fold u.
    rewrite filter_none_keeps_all by done. rewrite Hnone. simpl.
    rewrite update_rows_nil, set_tasks_same. split_and!; by eauto.
Qed.

End Mutations.

(** ** More on the list views *)

Section ListViewsMore.
Context `{Externals}.

(** The condition of a view on a row of the requesting user. *)
Definition view_condition (v : View) (clock : Clock) (t : Tasks) : Prop :=
  match v with
  | TodayView => due_today_or_overdue (date_today clock) t
  | UpcomingView => due_between (date_today clock) (date_today clock + 7) t
  | AllView => True
  end.

Lemma elem_of_view_qs v clock u table t :
  t ∈ view_qs v clock u table ↔
  t ∈ table ∧ created_by t = u ∧ view_condition v clock t.
Proof.
  destruct v; unfold view_qs, today_qs, next_week_qs, all_qs;
    rewrite order_by_Permutation, ?list_elem_of_filter;
    unfold owned_by; simpl; tauto.
Qed.

Lemma view_qs_positions v clock u table i j a b :
  (i < j)%nat →
  view_qs v clock u table !! i = Some a →
  view_qs v clock u table !! j = Some b →
  (status a = true → status b = true) ∧
  (status a = status b →
   due_date a ≤ due_date b ∧ date_of (due_date a) ≤ date_of (due_date b)).
Proof.
  intros Hij Ha Hb. apply status_due_le_spelled.
  eapply StronglySorted_positions; [|done..].
  destruct v; apply order_by_sorted.
Qed.

(** X1. [all_tasks] leaves the database as it is.  Its query set is
    exactly the rows of the requesting user, each once per row of the
    table, open rows before completed ones and by due date within each; its
    response is the page asked for of that sequence: status 200, the page
    number the request names when it is a valid one and 1 otherwise, the
    rows of that page serialized (at least one unless the user has no
    rows), and the number of the user's rows as total.  The response is the
    same on any table that has the same rows of that user. *)
Theorem all_tasks_read_only request s :
  let u := user_pk (user request) in
  let qs := all_qs u (tasks s) in
  let np := num_pages {| object_list := qs; per_page := 20 |} in
  let n := page_asked request np in
  (∀ t, t ∈ qs ↔ t ∈ tasks s ∧ created_by t = u) ∧
  qs ≡ₚ filter (owned_by u) (tasks s) ∧
  (∀ i j a b, (i < j)%nat → qs !! i = Some a → qs !! j = Some b →
     (status a = true → status b = true) ∧
     (status a = status b →
      due_date a ≤ due_date b ∧ date_of (due_date a) ≤ date_of (due_date b))) ∧
  (∃ resp pagination counts,
     all_tasks request s = (inr resp, s) ∧
     status_code resp = HTTP_200_OK ∧
     response_pagination resp = Some pagination ∧
     pagination_page pagination = n ∧
     1 ≤ n ≤ np ∧
     response_user_tasks resp =
       serialize_task <$> take 20 (drop (Z.to_nat ((n - 1) * 20)) qs) ∧
     (qs ≠ [] → response_user_tasks resp ≠ []) ∧
     response_counts resp = Some counts ∧
     total_number_tasks counts = count qs) ∧
  (∀ s2, own u (tasks s2) = own u (tasks s) →
         (all_tasks request s2).1 = (all_tasks request s).1).
Proof.
  intros u qs np n. split_and!.
  - intros t. unfold qs.
    rewrite (elem_of_view_qs AllView {| date_today := 0; timezone_now_date := 0 |}).
    simpl. tauto.
  - apply order_by_Permutation.
  - intros i j a b.
    apply (view_qs_positions AllView {| date_today := 0; timezone_now_date := 0 |}).
  - apply (list_view_serves AllView
             {| date_today := 0; timezone_now_date := 0 |} request s).
  - intros s2 Hown. unfold all_tasks. run. rewrite !list_response_run. simpl.
    do 2 f_equal.
    pose proof (view_qs_own AllView {| date_today := 0; timezone_now_date := 0 |})
      as Hv.
    simpl in Hv. fold u. by rewrite (Hv u (tasks s2)), (Hv u (tasks s)), Hown.
Qed.

(** X2. The query set of [next_week_tasks] is exactly the rows of the
    requesting user that are due from today to seven days ahead (of the
    table as it is once the routines are applied), open rows before
    completed ones and by due date within each; a row due before today is
    not in it, whatever its state.  The response is the page asked for of
    that sequence: status 200, the page number the request names when it is
    a valid one and 1 otherwise, the rows of that page serialized (at least
    one unless the sequence is empty), and the size of the whole sequence as
    total. *)
Theorem next_week_tasks_contents clock request s :
  let u := user_pk (user request) in
  let today := date_today clock in
  let table := tasks (next_week_tasks clock request s).2 in
  let qs := next_week_qs u today (today + 7) table in
  let np := num_pages {| object_list := qs; per_page := 20 |} in
  let n := page_asked request np in
  (∀ t, t ∈ qs ↔
        t ∈ table ∧ created_by t = u ∧
        today ≤ date_of (due_date t) ≤ today + 7) ∧
  qs ≡ₚ filter (λ t, owned_by u t ∧ due_between today (today + 7) t) table ∧
  (∀ t, date_of (due_date t) < today → t ∉ qs) ∧
  (∀ i j a b, (i < j)%nat → qs !! i = Some a → qs !! j = Some b →
     (status a = true → status b = true) ∧
     (status a = status b →
      due_date a ≤ due_date b ∧ date_of (due_date a) ≤ date_of (due_date b))) ∧
  ∃ resp pagination counts,
    (next_week_tasks clock request s).1 = inr resp ∧
    status_code resp = HTTP_200_OK ∧
    response_pagination resp = Some pagination ∧
    pagination_page pagination = n ∧
    1 ≤ n ≤ np ∧
    response_user_tasks resp =
      serialize_task <$> take 20 (drop (Z.to_nat ((n - 1) * 20)) qs) ∧
    (qs ≠ [] → response_user_tasks resp ≠ []) ∧
    response_counts resp = Some counts ∧
    total_number_tasks counts = count qs.
Proof.
  destruct (list_view_serves UpcomingView clock request s)
    as (resp & pagination & counts & Hrun & Hserved).
  cbn [list_view view_qs] in Hrun, Hserved. rewrite Hrun. cbn [fst snd].
  set (table := tasks (queried_store UpcomingView clock request s)) in *.
  assert (∀ t, t ∈ next_week_qs (user_pk (user request)) (date_today clock)
                     (date_today clock + 7) table ↔
               t ∈ table ∧ created_by t = user_pk (user request) ∧
               date_today clock ≤ date_of (due_date t) ≤ date_today clock + 7)
    as Hmem.
  { intros t. apply (elem_of_view_qs UpcomingView). }
  split_and!.
  - exact Hmem.
  - apply order_by_Permutation.
  - intros t Hlt Hin. apply Hmem in Hin. lia.
  - intros i j a b. apply (view_qs_positions UpcomingView).
  - exists resp, pagination, counts. split; [done|]. exact Hserved.
Qed.

Lemma served_page_valid qs p n :
  py_int p = Some n →
  1 ≤ n ≤ num_pages {| object_list := qs; per_page := 20 |} →
  served_page qs (Some p) = n.
Proof.
  intros Hp Hn. unfold served_page, validate_number.
  cbn [int_of_page_number]. rewrite Hp.
  rewrite decide_False by lia. by rewrite decide_False by lia.
Qed.

(** X3. For a [page] parameter that reads as a number from 1 to the number
    of pages, a list view serves that page: the response carries that page
    number and the rows 20(n-1)+1 to 20n of the view's query set; the page
    has exactly 20 rows unless it is the last one, and is not empty unless
    the query set is. *)
Theorem list_view_valid_page v clock request s p n :
  let qs := view_qs v clock (user_pk (user request))
              (tasks (list_view v clock request s).2) in
  GET_page request = Some p → py_int p = Some n →
  1 ≤ n ≤ num_pages {| object_list := qs; per_page := 20 |} →
  ∃ resp pagination,
    (list_view v clock request s).1 = inr resp ∧
    response_pagination resp = Some pagination ∧
    pagination_page pagination = n ∧
    response_user_tasks resp =
      serialize_task <$> take 20 (drop (Z.to_nat ((n - 1) * 20)) qs) ∧
    (n < num_pages {| object_list := qs; per_page := 20 |} →
     length (response_user_tasks resp) = 20%nat) ∧
    (qs ≠ [] → response_user_tasks resp ≠ []).
Proof.
  rewrite list_view_run. cbn [fst snd].
  set (qs := view_qs v clock (user_pk (user request))
               (tasks (queried_store v clock request s))).
  intros Hpage Hp Hn. eexists _, _.
  split; [reflexivity|]. split; [reflexivity|].
  unfold list_response_of, response_user_tasks, count.
  cbn [body pagination_page]. rewrite Hpage, (served_page_valid qs p n Hp Hn).
  rewrite slice_page by lia.
  pose proof (num_pages_bounds qs) as Hb. unfold count in Hb.
  clearbody qs.
  generalize dependent (num_pages {| object_list := qs; per_page := 20 |}).
  intros np Hn Hb.
  split_and!; [done..| |].
  - intros Hlast. rewrite length_fmap, length_take, length_drop.
    assert (Z.to_nat ((n - 1) * 20) + 20 ≤ length qs)%nat by lia. lia.
  - intros Hne Hnil. apply fmap_nil_inv in Hnil.
    assert (Z.to_nat ((n - 1) * 20) < length qs)%nat
      by (destruct qs; [done|]; simpl in *; lia).
    assert (length (take 20 (drop (Z.to_nat ((n - 1) * 20)) qs)) ≠ 0%nat)
      as Hlen by (rewrite length_take, length_drop; lia).
    by rewrite Hnil in Hlen.
Qed.

(** X6. A [page] parameter that reads as a number below 1 (zero or
    negative) is answered like a request without the parameter: page 1,
    status 200. *)
Theorem list_view_page_below_one v clock request s p n :
  GET_page request = Some p → py_int p = Some n → n < 1 →
  list_view v clock request s = list_view v clock (with_page request None) s ∧
  ∃ resp pagination,
    (list_view v clock request s).1 = inr resp ∧
    status_code resp = 200 ∧
    response_pagination resp = Some pagination ∧
    pagination_page pagination = 1.
Proof.
  intros Hpage Hp Hn.
  rewrite !list_view_run, queried_store_with_page.
  set (qs := view_qs v clock (user_pk (user request))
               (tasks (queried_store v clock request s))).
  assert (served_page qs (Some p) = 1) as H1.
  { unfold served_page, validate_number. cbn [int_of_page_number].
    rewrite Hp. by rewrite decide_True by lia. }
  assert (served_page qs None = 1) as H2
    by (unfold served_page; by rewrite validate_number_first).
  unfold list_response_of. cbn [GET_page with_page user]. fold qs.
  rewrite Hpage, H1, H2. split; [done|]. by eexists _, _.
Qed.

(** The rows of page [n] of a query set, as [Paginator.page] gives them. *)
Definition page_rows (qs : list Tasks) (n : Z) : list Tasks :=
  match page {| object_list := qs; per_page := 20 |} (VInt n) with
  | inr pg => page_object_list pg
  | inl _ => []
  end.

Lemma page_rows_valid qs n :
  1 ≤ n ≤ num_pages {| object_list := qs; per_page := 20 |} →
  page {| object_list := qs; per_page := 20 |} (VInt n) =
    inr {| page_object_list := take 20 (drop (Z.to_nat ((n - 1) * 20)) qs);
           number := n |}.
Proof.
  intros Hn. unfold page, validate_number. cbn [int_of_page_number].
  rewrite decide_False by lia. rewrite decide_False by lia.
  cbn [object_list per_page]. unfold count. by rewrite slice_page by lia.
Qed.

Lemma chunks_take {A} (l : list A) (m : nat) :
  concat ((λ k : nat, take 20 (drop (20 * (k - 1)) l)) <$> seq 1 m) =
  take (20 * m) l.
Proof.
  induction m as [|m IH]; [done|].
  rewrite seq_S, fmap_app, concat_app, IH. simpl.
  rewrite app_nil_r. replace (m - 0)%nat with m by lia.
  rewrite take_take_drop. f_equal. lia.
Qed.

(** The pages of a query set tile it: every page number from 1 to the
    number of pages is served, and the rows of these pages, one after the
    other, are the query set. *)
Theorem pages_cover_query_set (qs : list Tasks) :
  let np := num_pages {| object_list := qs; per_page := 20 |} in
  (∀ n, 1 ≤ n ≤ np →
        ∃ pg, page {| object_list := qs; per_page := 20 |} (VInt n) = inr pg ∧
              number pg = n ∧ (length (page_object_list pg) ≤ 20)%nat) ∧
  concat ((λ k : nat, page_rows qs (Z.of_nat k)) <$> seq 1 (Z.to_nat np)) = qs.
Proof.
  intros np. pose proof (num_pages_bounds qs) as Hb. fold np in Hb.
  split.
  - intros n Hn. rewrite page_rows_valid by done. eexists.
    split_and!; [done..|]. simpl. rewrite length_take. lia.
  - trans (take (20 * Z.to_nat np) qs);
      [|apply take_ge; unfold count in Hb; lia].
    rewrite <- chunks_take. f_equal.
    apply Forall_fmap_ext_1, Forall_forall. intros k Hk.
    apply elem_of_seq in Hk. unfold page_rows.
    rewrite page_rows_valid by lia. simpl. do 2 f_equal. lia.
Qed.

(** The rows a view shows, none when it raised. *)
Definition rows_shown (r : Exn + Response) : list Ser :=
  match r with
  | inr resp => response_user_tasks resp
  | inl _ => []
  end.

Lemma fmap_concat {A B} (f : A → B) (ls : list (list A)) :
  f <$> concat ls = concat ((λ l : list A, f <$> l) <$> ls).
Proof.
  induction ls as [|l ls IH]; [done|]. simpl. by rewrite fmap_app, IH.
Qed.

Lemma NoDup_fmap_eq {A B} (f : A → B) (l : list A) x y :
  NoDup (f <$> l) → x ∈ l → y ∈ l → f x = f y → x = y.
Proof.
  induction l as [|z l IH]; intros Hnd Hx Hy Hf.
  - by apply elem_of_nil in Hx.
  - rewrite fmap_cons in Hnd. apply NoDup_cons in Hnd as [Hz Hnd].
    apply elem_of_cons in Hx as [->|Hx], Hy as [->|Hy]; [done| | |by apply IH].
    + destruct Hz. rewrite Hf. by apply list_elem_of_fmap_2.
    + destruct Hz. rewrite <- Hf. by apply list_elem_of_fmap_2.
Qed.

(** Two rows that the order puts each before the other tie on both keys. *)
Lemma status_due_le_tie a b :
  status_due_le a b → status_due_le b a →
  (status a, due_date a) = (status b, due_date b).
Proof.
  unfold status_due_le.
  intros [[Ha Hb]|[Hs Hd]] [[Hb' Ha']|[Hs' Hd']]; try congruence.
  f_equal; [done|lia].
Qed.

(** X4. When no two rows of a list view's query set tie on status and due
    datetime, the order of the query set is forced (every sequence of the
    same rows in that order is the query set, whatever sort produces it),
    and paging through the view shows every row once and in order: with
    page parameters that read as 1, 2, ... up to the number of pages, the
    rows of the responses, one after the other, are the serialized query
    set. *)
Theorem list_view_pages_show_all v clock request s (render : Z → string) :
  let qs := view_qs v clock (user_pk (user request))
              (tasks (list_view v clock request s).2) in
  let np := num_pages {| object_list := qs; per_page := 20 |} in
  NoDup ((λ t, (status t, due_date t)) <$> qs) →
  (∀ n, 1 ≤ n ≤ np → py_int (render n) = Some n) →
  (∀ l, l ≡ₚ qs → StronglySorted status_due_le l → l = qs) ∧
  concat ((λ k : nat,
             rows_shown (list_view v clock
                           (with_page request (Some (render (Z.of_nat k))))
                           s).1)
          <$> seq 1 (Z.to_nat np)) =
  serialize_task <$> qs.
Proof.
  cbv zeta. rewrite list_view_run. cbn [snd].
  set (qs := view_qs v clock (user_pk (user request))
               (tasks (queried_store v clock request s))).
  set (np := num_pages {| object_list := qs; per_page := 20 |}).
  intros Hties Hrender.
  pose proof (num_pages_bounds qs) as Hb. fold np in Hb.
  split.
  { intros l Hperm Hsorted.
    apply (StronglySorted_unique_strong status_due_le); [|done| |done].
    - intros x1 x2 Hx1 Hx2 H12 H21.
      apply (NoDup_fmap_eq (λ t, (status t, due_date t)) qs); [done| |done|].
      + by rewrite <- Hperm.
      + by apply status_due_le_tie.
    - unfold qs. destruct v; apply order_by_sorted. }
  trans (concat ((λ l : list Tasks, serialize_task <$> l) <$>
                 ((λ k : nat, take 20 (drop (20 * (k - 1)) qs))
                  <$> seq 1 (Z.to_nat np)))).
  - f_equal. rewrite <- list_fmap_compose.
    apply Forall_fmap_ext_1, Forall_forall. intros k Hk.
    apply elem_of_seq in Hk.
    rewrite list_view_run, queried_store_with_page. cbn [fst rows_shown].
    unfold list_response_of, response_user_tasks, count.
    cbn [body GET_page with_page user compose]. fold qs.
    rewrite (served_page_valid qs _ (Z.of_nat k)) by (try apply Hrender; lia).
    rewrite slice_page by lia. do 3 f_equal. lia.
  - rewrite <- fmap_concat, chunks_take. f_equal.
    apply take_ge. unfold count in Hb. lia.
Qed.

(** X5. In every list response the pagination block agrees with the
    counts: its total is the reported total, the page served lies between 1
    and the number of pages, the number of pages is the least that holds
    the total at 20 a page (1 for an empty view), and the completed and
    pending counts lie between 0 and the total. *)
Theorem list_view_pagination_block v clock request s :
  ∃ resp pagination counts,
    (list_view v clock request s).1 = inr resp ∧
    response_pagination resp = Some pagination ∧
    response_counts resp = Some counts ∧
    pagination_total pagination = total_number_tasks counts ∧
    1 ≤ pagination_page pagination ≤ pagination_num_pages pagination ∧
    20 * (pagination_num_pages pagination - 1)
      < Z.max 1 (total_number_tasks counts) ≤
    20 * pagination_num_pages pagination ∧
    0 ≤ completed_tasks_count counts ≤ total_number_tasks counts ∧
    0 ≤ pending_tasks counts ≤ total_number_tasks counts.
Proof.
  rewrite list_view_run. eexists _, _, _. cbn [fst].
  split; [reflexivity|]. split; [reflexivity|]. split; [reflexivity|].
  cbn.
  set (qs := view_qs v clock (user_pk (user request))
               (tasks (queried_store v clock request s))).
  pose proof (served_page_bounds qs (GET_page request)).
  pose proof (num_pages_bounds qs).
  assert (0 ≤ count (filter is_completed qs) ≤ count qs).
  { unfold count. pose proof (length_filter is_completed qs). lia. }
  split_and!; try done; lia.
Qed.

End ListViewsMore.

(** ** More on the mutations *)

Section MutationsMore.
Context `{Externals}.

Lemma filter_all_true {A} (P : A → Prop) `{∀ x, Decision (P x)} (l : list A) :
  (∀ x, x ∈ l → P x) → filter P l = l.
Proof.
  induction l as [|x l IH]; intros HP; [done|].
  rewrite filter_cons_True by (apply HP; left).
  rewrite IH; [done|]. intros y Hy. apply HP. by right.
Qed.

Lemma filter_all_false {A} (P : A → Prop) `{∀ x, Decision (P x)} (l : list A) :
  (∀ x, x ∈ l → ¬ P x) → filter P l = [].
Proof.
  induction l as [|x l IH]; intros HP; [done|].
  rewrite filter_cons_False by (apply HP; left).
  apply IH. intros y Hy. apply HP. by right.
Qed.

Lemma length_filter_split {A} (P : A → Prop) `{∀ x, Decision (P x)}
      (l : list A) :
  (length (filter (λ x, ¬ P x) l) + length (filter P l) = length l)%nat.
Proof.
  induction l as [|x l IH]; [done|].
  rewrite !filter_cons. destruct (decide (P x)).
  - rewrite decide_False by auto. simpl. lia.
  - rewrite decide_True by auto. simpl. lia.
Qed.

(** On a table with unique keys a row splits the table, and no other row
    has its key. *)
Lemma key_split (l : list Tasks) t :
  NoDup (pk <$> l) → t ∈ l →
  ∃ l1 l2, l = l1 ++ t :: l2 ∧ ∀ x, x ∈ l1 ++ l2 → pk x ≠ pk t.
Proof.
  intros Hnd Ht. apply list_elem_of_split in Ht as (l1 & l2 & ->).
  exists l1, l2. split; [done|].
  rewrite fmap_app, fmap_cons in Hnd.
  apply NoDup_app in Hnd as (_ & Hl1 & Hl2). apply NoDup_cons in Hl2 as [Hl2 _].
  intros x [Hx|Hx]%elem_of_app Hpk.
  - apply (Hl1 (pk x)); [by apply list_elem_of_fmap_2|]. rewrite Hpk. left.
  - apply Hl2. rewrite <- Hpk. by apply list_elem_of_fmap_2.
Qed.

Lemma filter_out_key (l1 l2 : list Tasks) t :
  (∀ x, x ∈ l1 ++ l2 → pk x ≠ pk t) →
  filter (λ x, ¬ pk x = pk t) (l1 ++ t :: l2) = l1 ++ l2.
Proof.
  intros Hne. rewrite filter_app, filter_cons_False by auto.
  rewrite !filter_all_true; [done|..]; intros x Hx; apply Hne, elem_of_app; auto.
Qed.

Lemma write_at_key (l1 l2 : list Tasks) t r :
  (∀ x, x ∈ l1 ++ l2 → pk x ≠ pk t) →
  (λ x, if decide (pk x = pk t) then r else x) <$> (l1 ++ t :: l2) =
  l1 ++ r :: l2.
Proof.
  intros Hne. rewrite fmap_app, fmap_cons, decide_True by done.
  assert (∀ l : list Tasks, (∀ x, x ∈ l → pk x ≠ pk t) →
               (λ x, if decide (pk x = pk t) then r else x) <$> l = l) as Hid.
  { intros l Hl. rewrite <- (list_fmap_id l) at 2.
    apply Forall_fmap_ext_1, Forall_forall. intros x Hx.
    rewrite decide_False; [done|]. by apply Hl. }
  rewrite !Hid; [done|..]; intros x Hx; apply Hne, elem_of_app; auto.
Qed.

(** The single-task views when [get_object_or_404] finds no row. *)
Lemma single_task_views_not_found clock request task_id s :
  filter (λ t, pk t = task_id ∧ owned_by (user_pk (user request)) t)
         (tasks s) = [] →
  update_task clock request task_id s = (inr generic_error, s) ∧
  delete_task clock request task_id s = (inr generic_error, s) ∧
  task_complete clock request task_id s = (inr generic_error, s).
Proof.
  intros Hf. unfold update_task, delete_task, task_complete, get_object_or_404.
  run. by rewrite Hf.
Qed.

(** X7. An id that is not the key of a task of the requesting user (no
    such task, or a task of someone else): updating, deleting and toggling
    it each answer the generic error with status 500, and the table is as
    before. *)
Theorem single_task_views_unknown_id clock request task_id s :
  (∀ t, t ∈ tasks s → created_by t = user_pk (user request) →
        pk t ≠ task_id) →
  update_task clock request task_id s =
    (inr {| body := ErrorBody "An error occurred"; status_code := 500 |}, s) ∧
  delete_task clock request task_id s =
    (inr {| body := ErrorBody "An error occurred"; status_code := 500 |}, s) ∧
  task_complete clock request task_id s =
    (inr {| body := ErrorBody "An error occurred"; status_code := 500 |}, s).
Proof.
  intros Hnone. apply single_task_views_not_found.
  apply filter_all_false. intros t Ht [Hpk Hu]. by eapply Hnone.
Qed.

Lemma delete_task_run clock request t s :
  wf_store s → t ∈ tasks s → created_by t = user_pk (user request) →
  ∃ counts,
    delete_task clock request (pk t) s =
    (inr {| body := MessageBody "Task deleted" counts; status_code := 200 |},
     set_tasks s (filter (λ x, ¬ pk x = pk t) (tasks s))).
Proof.
  intros [Hnd _] Ht Hu.
  destruct (filter_pk_owned_head _ _ _ Hnd Ht Hu) as [rest Hf].
  unfold delete_task, get_object_or_404, delete_where. run. rewrite Hf.
  simpl. by eexists.
Qed.

(** X8. Deleting a task of the requesting user, on a table with unique
    primary keys, answers 200 and takes exactly that row out, the other
    rows staying in place; the task is then in the query set of no list
    view, and deleting it once more answers the generic error 500 and
    changes nothing. *)
Theorem delete_task_removes clock request s t :
  wf_store s → t ∈ tasks s → created_by t = user_pk (user request) →
  ∃ counts s' l1 l2,
    delete_task clock request (pk t) s =
      (inr {| body := MessageBody "Task deleted" counts;
              status_code := 200 |}, s') ∧
    tasks s = l1 ++ t :: l2 ∧ tasks s' = l1 ++ l2 ∧
    next_pk s' = next_pk s ∧
    (∀ v, t ∉ view_qs v clock (user_pk (user request)) (tasks s')) ∧
    delete_task clock request (pk t) s' =
      (inr {| body := ErrorBody "An error occurred"; status_code := 500 |},
       s').
Proof.
  intros Hwf Ht Hu.
  destruct (delete_task_run clock request t s Hwf Ht Hu) as [counts Hrun].
  destruct (key_split (tasks s) t (proj1 Hwf) Ht) as (l1 & l2 & Hl & Hne).
  rewrite Hrun. eexists counts, _, l1, l2. split; [reflexivity|].
  assert (tasks (set_tasks s (filter (λ x, ¬ pk x = pk t) (tasks s))) = l1 ++ l2)
    as Hs' by (simpl; rewrite Hl; by apply filter_out_key).
  split_and!; [done|done|done| |].
  - intros v Hin%elem_of_view_qs. rewrite Hs' in Hin.
    destruct Hin as [Hin _]. by apply (Hne t Hin).
  - apply single_task_views_not_found, filter_all_false. rewrite Hs'.
    intros x Hx [Hpk _]. by apply (Hne x Hx).
Qed.

(** X9. The bulk delete of a non-empty list of ids that the key field
    takes answers 200 and removes exactly the rows of the requesting user
    whose id is listed: the rows of others and the rows not listed stay, the
    table shrinks by the number of rows selected, and running the same
    delete again removes nothing more and still answers 200. *)
Theorem multiple_delete_task_removes clock request s i task_ids ids :
  get (data request) "task_ids" (VList []) = VList (i :: task_ids) →
  mapM id_prep (i :: task_ids) = Some ids →
  ∃ counts s',
    multiple_delete_task clock request s =
      (inr {| body := MessageBody "Tasks deleted" counts;
              status_code := 200 |}, s') ∧
    (∀ x, x ∈ tasks s' ↔
          x ∈ tasks s ∧
          ¬ (pk x ∈ ids ∧ created_by x = user_pk (user request))) ∧
    tasks s' `sublist_of` tasks s ∧
    (length (tasks s') +
     length (filter (owned_id_in ids (user_pk (user request))) (tasks s)) =
     length (tasks s))%nat ∧
    ∃ counts',
      multiple_delete_task clock request s' =
        (inr {| body := MessageBody "Tasks deleted" counts';
                status_code := 200 |}, s').
Proof.
  intros Hids Hprep.
  unfold multiple_delete_task, id_in_lookup, delete_where.
  rewrite Hids, Hprep. run. eexists _, _. split; [reflexivity|]. simpl.
  split_and!.
  - intros x. rewrite list_elem_of_filter. unfold owned_id_in, id_in, owned_by.
    tauto.
  - apply sublist_filter.
  - apply length_filter_split.
  - rewrite list_filter_filter_l by done. unfold set_tasks. simpl.
    by eexists.
Qed.

(** X10. The three bulk views answer a [task_ids] that is not a list with
    400 and "task_ids should be a list of IDs", and a list with an element
    the key field cannot take with the generic error 500; in both cases the
    table is as before. *)
Theorem bulk_views_bad_task_ids clock request s :
  ((∀ l, get (data request) "task_ids" (VList []) ≠ VList l) →
   let bad := {| body := ErrorBody "task_ids should be a list of IDs";
                 status_code := 400 |} in
   multiple_update_task_dates clock request s = (inr bad, s) ∧
   multiple_delete_task clock request s = (inr bad, s) ∧
   multiple_task_complete clock request s = (inr bad, s)) ∧
  (∀ l, get (data request) "task_ids" (VList []) = VList l →
        mapM id_prep l = None →
        let generic := {| body := ErrorBody "An error occurred";
                          status_code := 500 |} in
        multiple_update_task_dates clock request s = (inr generic, s) ∧
        multiple_delete_task clock request s = (inr generic, s) ∧
        multiple_task_complete clock request s = (inr generic, s)).
Proof.
  unfold multiple_update_task_dates, multiple_delete_task,
    multiple_task_complete, id_in_lookup.
  split.
  - intros Hnot.
    destruct (get (data request) "task_ids" (VList [])) as [| | | |l];
      [done..|]. by destruct (Hnot l).
  - intros l -> Hprep. destruct l as [|i l]; [done|]. by rewrite Hprep.
Qed.

(** X11. The bulk views take the list of ids as a set: two requests of the
    same user that differ only in [task_ids], both lists non-empty and
    naming the same ids (in any order, any number of times), get the same
    response and leave the same table. *)
Theorem bulk_views_ids_as_set clock r1 r2 s l1 l2 ids1 ids2 :
  user r2 = user r1 →
  data r2 = <["task_ids" := VList l2]> (data r1) →
  get (data r1) "task_ids" (VList []) = VList l1 →
  l1 ≠ [] → l2 ≠ [] →
  mapM id_prep l1 = Some ids1 → mapM id_prep l2 = Some ids2 →
  (∀ k, k ∈ ids1 ↔ k ∈ ids2) →
  multiple_task_complete clock r2 s = multiple_task_complete clock r1 s ∧
  multiple_delete_task clock r2 s = multiple_delete_task clock r1 s ∧
  multiple_update_task_dates clock r2 s = multiple_update_task_dates clock r1 s.
Proof.
  intros Huser Hdata Hl1 Hne1 Hne2 Hp1 Hp2 Hsame.
  assert (get (data r2) "task_ids" (VList []) = VList l2) as Hl2
    by (unfold get; by rewrite Hdata, lookup_insert_eq).
  assert (∀ key d, key ≠ "task_ids" → get (data r2) key d = get (data r1) key d)
    as Hother by (intros key d Hk; unfold get; by rewrite Hdata, lookup_insert_ne).
  assert (∀ l : list Tasks,
            filter (owned_id_in ids2 (user_pk (user r1))) l =
            filter (owned_id_in ids1 (user_pk (user r1))) l) as Hsel.
  { intros l. apply list_filter_iff. intros x.
    unfold owned_id_in, id_in. by rewrite Hsame. }
  assert (∀ l : list Tasks,
            filter (λ t, ¬ owned_id_in ids2 (user_pk (user r1)) t) l =
            filter (λ t, ¬ owned_id_in ids1 (user_pk (user r1)) t) l) as Hdel.
  { intros l. apply list_filter_iff. intros x.
    unfold owned_id_in, id_in. by rewrite Hsame. }
  unfold multiple_task_complete, multiple_delete_task,
    multiple_update_task_dates, id_in_lookup, evaluate, bulk_update,
    delete_where, tasks_count.
  rewrite Hl1, Hl2, !Hother, Huser by done.
  destruct l1 as [|i1 l1]; [done|]. destruct l2 as [|i2 l2]; [done|].
  rewrite Hp1, Hp2. run. by rewrite !Hsel, !Hdel.
Qed.

(** X12. A bulk date update that selects at least one task of the
    requesting user, on a table with unique primary keys: without a due
    date in the request it answers 200 with the selected tasks and changes
    nothing; with a due date that parses it answers 200 and writes that
    date to exactly the selected rows, every other column and every other
    row staying as they are. *)
Theorem multiple_update_task_dates_sets clock request s i task_ids ids :
  wf_store s →
  get (data request) "task_ids" (VList []) = VList (i :: task_ids) →
  mapM id_prep (i :: task_ids) = Some ids →
  filter (owned_id_in ids (user_pk (user request))) (tasks s) ≠ [] →
  let selected := filter (owned_id_in ids (user_pk (user request))) (tasks s) in
  (get (data request) "due_date" VNone = VNone →
   ∃ counts,
     multiple_update_task_dates clock request s =
     (inr {| body := TasksBody (serialize_task <$> selected) counts;
             status_code := 200 |}, s)) ∧
  (∀ due,
     get (data request) "due_date" VNone ≠ VNone →
     _parse_date_input (get (data request) "due_date" VNone) = Some due →
     ∃ counts s',
       multiple_update_task_dates clock request s =
       (inr {| body := TasksBody (serialize_task <$> (dated due <$> selected))
                                 counts;
               status_code := 200 |}, s') ∧
       tasks s' =
         (λ x, if decide (pk x ∈ ids ∧ created_by x = user_pk (user request))
               then dated due x else x) <$> tasks s ∧
       next_pk s' = next_pk s ∧
       ∀ x, due_date (dated due x) = due ∧ pk (dated due x) = pk x ∧
            created_by (dated due x) = created_by x ∧
            task_title (dated due x) = task_title x ∧
            task_details (dated due x) = task_details x ∧
            status (dated due x) = status x ∧
            done_date (dated due x) = done_date x).
Proof.
  intros [Hnd _] Hids Hprep Hsel selected.
  unfold multiple_update_task_dates, id_in_lookup, evaluate, bulk_update.
  rewrite Hids, Hprep. run. fold selected.
  destruct selected as [|t rest] eqn:Hselected; [done|].
  split.
  - intros ->. by eexists.
  - intros due Hraw Hparse. rewrite Hparse.
    rewrite (mapM_row_of_obj (set_due_date (Some due) ∘ obj_of_row) (dated due))
      by apply row_of_set_due_date.
    destruct (get (data request) "due_date" VNone); [done|..];
      rewrite <- Hselected;
      (eexists _, _; split; [reflexivity|]);
      cbn [tasks set_tasks next_pk]; unfold selected;
      rewrite update_rows_selective by done; done.
Qed.

(** Assigning the fields of a request to the row that a first assignment
    wrote gives that row again. *)
Lemma assign_fields_again request t r :
  row_of_obj (assign_fields request (obj_of_row t)) = Some r →
  row_of_obj (assign_fields request (obj_of_row r)) = Some r.
Proof.
  unfold row_of_obj, assign_fields, get. cbn -[lookup].
  destruct (data request !! "task_title") as [title|];
    destruct (data request !! "task_details") as [details|];
    destruct (data request !! "due_date") as [[]|];
    cbn; intros; repeat case_match; simplify_eq/=; try done;
    by repeat match goal with
              | |- context [task_details ?x] => destruct (task_details x)
              end.
Qed.

(** X13. Updating a task is idempotent: on a table with unique primary
    keys, sending the same update for a task of the requesting user a second
    time gives the same response as the first and leaves the table as the
    first left it. *)
Theorem update_task_idempotent clock request s t :
  wf_store s → t ∈ tasks s → created_by t = user_pk (user request) →
  update_task clock request (pk t) (update_task clock request (pk t) s).2 =
  update_task clock request (pk t) s.
Proof.
  intros Hwf Ht Hu.
  pose proof (mutate_keeps_wf (Update (pk t)) clock request s Hwf) as Hwf'.
  simpl in Hwf'. revert Hwf'.
  rewrite (update_task_run clock request t s) by done.
  destruct (row_of_obj _) as [r|] eqn:Hrow.
  - cbn [snd]. intros Hwf'.
    destruct (assign_fields_row _ _ _ Hrow) as (Hpk & Hur & _).
    rewrite <- Hpk.
    rewrite (update_task_run clock request r) by
      (first [done | congruence
             | simpl; apply (list_elem_of_fmap_2' _ _ t);
               [done|by rewrite decide_True]]).
    rewrite (assign_fields_again _ _ _ Hrow). simpl.
    rewrite <- list_fmap_compose.
    assert ((λ x, if decide (pk x = pk r) then r else x)
            ∘ (λ x, if decide (pk x = pk r) then r else x) <$> tasks s =
            (λ x, if decide (pk x = pk r) then r else x) <$> tasks s) as ->.
    { apply Forall_fmap_ext_1, Forall_forall. intros x _. unfold compose.
      destruct (decide (pk x = pk r));
        [by rewrite decide_True|by rewrite decide_False]. }
    done.
  - cbn [snd]. intros _. rewrite (update_task_run clock request t s) by done.
    by rewrite Hrow.
Qed.

(** X14. Toggling a task of the requesting user twice, on a table with
    unique primary keys, brings its completed flag back; an open task
    without a completion date gets the whole table back as it was, and a
    completed task comes out completed with today as its completion date. *)
Theorem task_complete_twice clock request s t :
  wf_store s → t ∈ tasks s → created_by t = user_pk (user request) →
  let s2 := (task_complete clock request (pk t)
               (task_complete clock request (pk t) s).2).2 in
  tasks s2 =
    (λ x, if decide (pk x = pk t) then toggled clock (toggled clock t) else x)
      <$> tasks s ∧
  status (toggled clock (toggled clock t)) = status t ∧
  (status t = false → done_date t = None → s2 = s) ∧
  (status t = true →
   done_date (toggled clock (toggled clock t)) =
     Some (timezone_now_date clock)).
Proof.
  intros Hwf Ht Hu.
  pose proof (mutate_keeps_wf (ToggleComplete (pk t)) clock request s Hwf)
    as Hwf'.
  simpl in Hwf'. revert Hwf'.
  destruct (task_complete_run clock request t s Hwf Ht Hu) as [c1 Hrun1].
  rewrite Hrun1. cbn [snd]. intros Hwf'.
  set (s1 := set_tasks s _) in *.
  assert (toggled clock t ∈ tasks s1) as Ht1.
  { simpl. apply (list_elem_of_fmap_2' _ _ t); [done|by rewrite decide_True]. }
  destruct (task_complete_run clock request (toggled clock t) s1 Hwf' Ht1 Hu)
    as [c2 Hrun2].
  change (pk (toggled clock t)) with (pk t) in Hrun2. rewrite Hrun2.
  assert (tasks (set_tasks s1
            ((λ x, if decide (pk x = pk t)
                   then toggled clock (toggled clock t) else x) <$> tasks s1)) =
          (λ x, if decide (pk x = pk t)
                then toggled clock (toggled clock t) else x) <$> tasks s)
    as Htasks.
  { simpl. rewrite <- list_fmap_compose.
    apply Forall_fmap_ext_1, Forall_forall. intros x _. unfold compose.
    destruct (decide (pk x = pk t));
      [by rewrite decide_True|by rewrite decide_False]. }
  cbn [snd]. split_and!.
  - exact Htasks.
  - simpl. by destruct (status t).
  - intros Hopen Hnone. destruct s as [l n rs]. unfold set_tasks in *.
    simpl in *. f_equal. rewrite Htasks.
    rewrite <- (list_fmap_id l) at 2.
    apply Forall_fmap_ext_1, Forall_forall. intros x Hx.
    case_decide as Hpk; [|done].
    rewrite (pk_unique l x t (proj1 Hwf) Hx Ht Hpk).
    destruct t. simpl in *. by subst.
  - intros Hdone. simpl. by rewrite Hdone.
Qed.

(** *** The completion date goes with the completed flag *)

(** A row is completed exactly when it has a completion date. *)
Definition completion_dated (t : Tasks) : Prop :=
  status t = true ↔ done_date t ≠ None.

Lemma Forall_update_rows (P : Tasks → Prop) rows l :
  Forall P rows → Forall P l → Forall P (update_rows rows l).
Proof.
  intros Hrows Hl. unfold update_rows. apply Forall_fmap, Forall_forall.
  intros x Hx. simpl. destruct (list_find _ _) as [[j r]|] eqn:Hfind.
  - apply list_find_Some in Hfind as (Hr & _).
    rewrite Forall_forall in Hrows. by eapply Hrows, list_elem_of_lookup_2.
  - rewrite Forall_forall in Hl. by apply Hl.
Qed.

Lemma Forall_filter_keep {A} (P Q : A → Prop) `{∀ x, Decision (Q x)} l :
  Forall P l → Forall P (filter Q l).
Proof.
  rewrite !Forall_forall. intros Hl x [_ Hx]%list_elem_of_filter. by apply Hl.
Qed.

Lemma Forall_written_rows (P : Tasks → Prop) (g : Tasks → TaskObj) l rows :
  (∀ x r, row_of_obj (g x) = Some r → P x → P r) →
  mapM row_of_obj (g <$> l) = Some rows → Forall P l → Forall P rows.
Proof.
  intros Hg Hrows%mapM_Some Hl. apply Forall2_fmap_l in Hrows.
  induction Hrows as [|x r l rows Hxr _ IH]; [done|].
  apply Forall_cons in Hl as [Hx Hl]. constructor; eauto.
Qed.

Lemma toggled_completion_dated clock t : completion_dated (toggled clock t).
Proof. unfold completion_dated. simpl. by destruct (status t). Qed.

(** X15. The mutations and [add_task] keep the rule that a row is
    completed exactly when it has a completion date: if it holds of every
    row of the table before, it holds of every row after. *)
Theorem completion_date_invariant clock request s :
  Forall completion_dated (tasks s) →
  (∀ op, Forall completion_dated (tasks (mutate op clock request s).2)) ∧
  Forall completion_dated (tasks (add_task clock request s).2).
Proof.
  intros Hs. split.
  - intros op.
    assert (∀ x r, row_of_obj (toggle clock (obj_of_row x)) = Some r →
                   completion_dated x → completion_dated r) as Htoggle.
    { intros x r Hr _. rewrite row_of_toggle in Hr. simplify_eq.
      apply toggled_completion_dated. }
    assert (∀ p x r, row_of_obj (set_due_date p (obj_of_row x)) = Some r →
                     completion_dated x → completion_dated r) as Hdated.
    { intros [due|] x r Hr Hx; [|by rewrite row_of_set_due_date_None in Hr].
      rewrite row_of_set_due_date in Hr. by simplify_eq. }
    assert (∀ x r, row_of_obj (assign_fields request (obj_of_row x)) = Some r →
                   completion_dated x → completion_dated r) as Hassign.
    { intros x r Hr Hx. apply assign_fields_row in Hr as (_ & _ & Hst & Hd & _).
      unfold completion_dated. by rewrite Hst, Hd. }
    assert (∀ P `{∀ t, Decision (P t)} t rest,
              filter P (tasks s) = t :: rest → completion_dated t) as Hhead.
    { intros P ? t rest Hf. rewrite Forall_forall in Hs. apply Hs.
      assert (t ∈ filter P (tasks s)) as Hin by (rewrite Hf; left).
      by apply list_elem_of_filter in Hin as [_ ?]. }
    destruct op; unfold mutate, update_task, multiple_update_task_dates,
      delete_task, multiple_delete_task, task_complete, multiple_task_complete,
      get_object_or_404, save, bulk_update, delete_where, id_in_lookup,
      evaluate; run;
      repeat case_match; simplify_eq/=;
      try done; try (by apply Forall_filter_keep);
      try (apply Forall_update_rows; [|done]);
      try (by (constructor; [|done]; eauto));
      try (by (eapply (Forall_written_rows _ (toggle clock ∘ obj_of_row));
               [apply Htoggle|done|by apply Forall_filter_keep]));
      match goal with
      | Hm : _ ≫= _ = Some ?rows, Hf : filter _ _ = ?t :: ?l
        |- Forall _ ?rows =>
          eapply (Forall_written_rows _ (set_due_date _ ∘ obj_of_row) (t :: l));
          [apply Hdated | exact Hm | rewrite <- Hf; by apply Forall_filter_keep]
      end.
  - unfold add_task, create. destruct (char_value _); [|done]. run.
    apply Forall_app. split; [done|]. by apply Forall_singleton.
Qed.

(** *** Keys and rows *)

(** A mutation that deletes. *)
Definition deletes (op : Mutation) : bool :=
  match op with
  | Delete _ | BulkDelete => true
  | _ => false
  end.

(** X16. No mutation creates a row or moves the key sequence: the keys
    after it are among the keys before, in the same order, and they are
    exactly the keys before unless the mutation is a delete; with it, keys
    that were unique and below the sequence stay so, as they do when
    [add_task] appends a row. *)
Theorem mutations_keep_keys op clock request s :
  let s' := (mutate op clock request s).2 in
  next_pk s' = next_pk s ∧
  routines s' = routines s ∧
  pk <$> tasks s' `sublist_of` pk <$> tasks s ∧
  (deletes op = false →
   pk <$> tasks s' = pk <$> tasks s ∧ length (tasks s') = length (tasks s)) ∧
  (wf_store s → wf_store s' ∧ wf_store (add_task clock request s).2).
Proof.
  intros s'.
  assert (next_pk s' = next_pk s ∧ routines s' = routines s ∧
          (pk <$> tasks s' = pk <$> tasks s ∨
           deletes op = true ∧ pk <$> tasks s' `sublist_of` pk <$> tasks s))
    as (Hnext & Hroutines & Hkeys).
  { unfold s'. destruct op; unfold mutate, update_task,
      multiple_update_task_dates, delete_task, multiple_delete_task,
      task_complete, multiple_task_complete, get_object_or_404, save,
      bulk_update, delete_where, id_in_lookup, evaluate; run;
      repeat case_match; simplify_eq/=;
      (split; [done|]); (split; [done|]);
      first [ by left
            | left; apply update_rows_keys
            | right; split; [done|]; apply fmap_sublist, sublist_filter ]. }
  split_and!; [done|done| | |].
  - by destruct Hkeys as [->|[_ ?]].
  - intros Hop. destruct Hkeys as [Heq|[Hdel _]]; [|congruence].
    split; [done|]. apply (f_equal length) in Heq.
    by rewrite !length_fmap in Heq.
  - intros Hwf. split; [|by apply add_task_keeps_wf].
    by apply mutate_keeps_wf.
Qed.

(** *** The counts of the all view follow the mutations *)

Lemma qs_counts_all u l :
  qs_counts (all_qs u l) =
  {| total_number_tasks := Z.of_nat (length (own u l));
     completed_tasks_count := Z.of_nat (length (filter is_completed (own u l)));
     pending_tasks := Z.of_nat (length (own u l)) -
                      Z.of_nat (length (filter is_completed (own u l))) |}.
Proof.
  unfold qs_counts, all_qs, count, own.
  by rewrite !order_by_Permutation.
Qed.

Lemma all_tasks_counts request s :
  ∃ resp,
    (all_tasks request s).1 = inr resp ∧
    response_counts resp =
      Some (qs_counts (all_qs (user_pk (user request)) (tasks s))).
Proof.
  unfold all_tasks. run. rewrite list_response_run. by eexists.
Qed.

Lemma own_app u (l1 l2 : list Tasks) : own u (l1 ++ l2) = own u l1 ++ own u l2.
Proof. apply filter_app. Qed.

(** X17. A task that [add_task] creates shows in the all view of its
    owner: the table gains that one row at its end, the row is in the query
    set of [all_tasks], and the counts [all_tasks] reports afterwards are
    the ones before with the total and the pending count one higher. *)
Theorem add_task_shows_in_all_view clock request s title :
  char_value (get (data request) "task_title" VNone) = Some title →
  let u := user_pk (user request) in
  let s' := (add_task clock request s).2 in
  ∃ t before after c0 c1,
    tasks s' = tasks s ++ [t] ∧ t ∈ all_qs u (tasks s') ∧
    (all_tasks request s).1 = inr before ∧
    (all_tasks request s').1 = inr after ∧
    response_counts before = Some c0 ∧ response_counts after = Some c1 ∧
    total_number_tasks c1 = total_number_tasks c0 + 1 ∧
    completed_tasks_count c1 = completed_tasks_count c0 ∧
    pending_tasks c1 = pending_tasks c0 + 1.
Proof.
  intros Htitle u s'.
  destruct (all_tasks_counts request s) as (before & Hb & Hc0).
  destruct (all_tasks_counts request s') as (after & Ha & Hc1).
  fold u in Hc0, Hc1. rewrite qs_counts_all in Hc0, Hc1.
  assert (∃ t, tasks s' = tasks s ++ [t] ∧ owned_by u t ∧ ¬ is_completed t)
    as (t & Hs' & Hu & Hopen).
  { unfold s', add_task, create. rewrite Htitle. run. by eexists. }
  rewrite Hs', own_app in Hc1. unfold own at 2 4 6 8 in Hc1.
  rewrite !(filter_cons_True (owned_by u)), !filter_nil in Hc1 by done.
  rewrite filter_app, (filter_cons_False is_completed t), filter_nil,
    app_nil_r, length_app in Hc1 by done.
  exists t, before, after. eexists _, _.
  split_and!; [done| |exact Hb|exact Ha|exact Hc0|exact Hc1|..]; simpl; try lia.
  apply (elem_of_view_qs AllView clock). split_and!; [|done..].
  rewrite Hs'. apply elem_of_app. right. left.
Qed.

(** X18. Toggling a task of the requesting user moves one unit between the
    completed and the pending count that [all_tasks] reports, on a table
    with unique primary keys: completing an open task adds one to completed
    and takes one from pending, reopening a completed one does the reverse,
    and the total stays. *)
Theorem task_complete_moves_one_count clock request s t :
  wf_store s → t ∈ tasks s → created_by t = user_pk (user request) →
  let s' := (task_complete clock request (pk t) s).2 in
  ∃ before after c0 c1,
    (all_tasks request s).1 = inr before ∧
    (all_tasks request s').1 = inr after ∧
    response_counts before = Some c0 ∧ response_counts after = Some c1 ∧
    total_number_tasks c1 = total_number_tasks c0 ∧
    (status t = false →
     completed_tasks_count c1 = completed_tasks_count c0 + 1 ∧
     pending_tasks c1 = pending_tasks c0 - 1) ∧
    (status t = true →
     completed_tasks_count c1 = completed_tasks_count c0 - 1 ∧
     pending_tasks c1 = pending_tasks c0 + 1).
Proof.
  intros Hwf Ht Hu s'.
  destruct (all_tasks_counts request s) as (before & Hb & Hc0).
  destruct (all_tasks_counts request s') as (after & Ha & Hc1).
  rewrite qs_counts_all in Hc0, Hc1.
  destruct (task_complete_run clock request t s Hwf Ht Hu) as [c Hrun].
  destruct (key_split (tasks s) t (proj1 Hwf) Ht) as (l1 & l2 & Hl & Hne).
  assert (tasks s' = l1 ++ toggled clock t :: l2) as Hs'.
  { unfold s'. rewrite Hrun. simpl. rewrite Hl. by apply write_at_key. }
  assert (∀ x l, owned_by (user_pk (user request)) x →
                 own (user_pk (user request)) (x :: l) =
                 x :: own (user_pk (user request)) l) as Hcons
    by (intros x l Hx; by apply filter_cons_True).
  rewrite Hs', own_app, Hcons, filter_app, length_app in Hc1 by done.
  rewrite Hl, own_app, Hcons, filter_app, length_app in Hc0 by done.
  exists before, after. eexists _, _.
  split_and!; [exact Hb|exact Ha|exact Hc0|exact Hc1|..]; simpl.
  - rewrite ?length_app. simpl. lia.
  - intros Hopen.
    rewrite (filter_cons_True is_completed (toggled clock t))
      by (unfold is_completed; simpl; by rewrite Hopen).
    rewrite (filter_cons_False is_completed t)
      by (unfold is_completed; by rewrite Hopen).
    rewrite ?length_app. simpl. lia.
  - intros Hdone.
    rewrite (filter_cons_False is_completed (toggled clock t))
      by (unfold is_completed; simpl; by rewrite Hdone).
    rewrite (filter_cons_True is_completed t) by done.
    rewrite ?length_app. simpl. lia.
Qed.

End MutationsMore.

(** ** The CSRF middleware *)

Section Middleware.
Context {HttpResponse : Type}.

Lemma startswith_iff s p : startswith s p = true ↔ ∃ rest, s = String.append p rest.
Proof.
  unfold startswith. revert s. induction p as [|c p IH]; intros s.
  - split; [|by destruct s]. intros _. by exists s.
  - destruct s as [|d s]; simpl.
    + split; [done|]. by intros [rest ?].
    + destruct (Ascii.ascii_dec c d) as [->|Hne].
      * rewrite IH. split; intros [rest Hrest]; exists rest.
        -- change (String d s = String d (String.append p rest)). congruence.
        -- change (String d s = String d (String.append p rest)) in Hrest.
           congruence.
      * split; [done|]. intros [rest Hrest].
        change (String d s = String c (String.append p rest)) in Hrest.
        congruence.
Qed.

(** X19. The middleware hands the rest of the chain the request with
    [_dont_enforce_csrf_checks] set to [True] exactly when the path begins
    with [/api/] (or the attribute was already so), with the path and every
    other attribute as they came, and returns what the chain returns; a
    request for another path goes through untouched, and stacking the
    middleware twice is the same as having it once. *)
Theorem middleware_marks_api_requests
        (self : DisableCSRFForAPIMiddleware HttpResponse) request :
  ∃ seen,
    call self request = get_response self seen ∧
    path seen = path request ∧
    (∀ name, name ≠ "_dont_enforce_csrf_checks" →
             attributes seen !! name = attributes request !! name) ∧
    (attributes seen !! "_dont_enforce_csrf_checks" = Some (VBool true) ↔
     (∃ rest, path request = String.append "/api/" rest) ∨
     attributes request !! "_dont_enforce_csrf_checks" = Some (VBool true)) ∧
    ((¬ ∃ rest, path request = String.append "/api/" rest) → seen = request) ∧
    call {| get_response := call self |} request = call self request.
Proof.
  unfold call. destruct (startswith (path request) "/api/") eqn:Hp.
  - apply startswith_iff in Hp as Hrest.
    eexists. split; [reflexivity|]. split_and!; unfold setattr; simpl.
    + done.
    + intros name Hname. by rewrite lookup_insert_ne.
    + rewrite lookup_insert_eq. split; [by left|done].
    + intros Hno. by destruct Hno.
    + by rewrite Hp, insert_insert_eq.
  - assert (¬ ∃ rest, path request = String.append "/api/" rest) as Hno.
    { intros Hrest%startswith_iff. congruence. }
    exists request. split_and!; try done.
    + split; [by right|]. by intros [?|?].
    + simpl. by rewrite Hp.
Qed.

End Middleware.

(** ** Concrete runs *)

(** Closes a decidable closed goal by evaluation. *)
Ltac by_evaluation := apply (bool_decide_unpack _); vm_compute; exact I.

Lemma sample_store_wf : wf_store Sample.store.
Proof. by_evaluation. Qed.

Lemma apply_routines_idempotent_witness :
  (1 ≤ 3)%nat ∧
  repeat_calls 3 (apply_routines (Sample.request Sample.alice None []) 100)
               Sample.store_with_routines =
  (apply_routines (Sample.request Sample.alice None []) 100
                  Sample.store_with_routines).2.
Proof.
  split; [lia|].
  apply (apply_routines_idempotent (H := Sample.externals) 3). lia.
Defined.

(** The first call creates the task of the routine that fires on day 100,
    the second creates nothing. *)
Example apply_routines_twice :
  let once := (apply_routines (H := Sample.externals)
                 (Sample.request Sample.alice None []) 100
                 Sample.store_with_routines).2 in
  pk <$> tasks once = [1; 2; 3; 4; 5; 6; 7] ∧
  (apply_routines (Sample.request Sample.alice None []) 100 once).2 = once.
Proof. split; reflexivity. Qed.

(** The scenario of the specification: three tasks due today, one of them
    complete, and one open task from yesterday. *)
Example today_view_scenario :
  ∃ resp,
    (today_tasks (H := Sample.externals) Sample.clock
       (Sample.request Sample.alice None []) Sample.store).1 = inr resp ∧
    pk <$> response_user_tasks resp = [4; 2; 3; 1] ∧
    status <$> response_user_tasks resp = [false; false; false; true] ∧
    response_counts resp =
      Some {| total_number_tasks := 4; completed_tasks_count := 1;
              pending_tasks := 3 |}.
Proof. eexists. split; [reflexivity|]. split_and!; reflexivity. Qed.

Lemma today_view_contents_witness :
  Sample.task 4 1 "taxes" 99 false ∈ today_qs 1 100 Sample.table ∧
  (Sample.task 6 1 "trip" 105 false ∉ today_qs 1 100 Sample.table) ∧
  ∃ resp,
    (today_tasks (H := Sample.externals) Sample.clock
       (Sample.request Sample.alice None []) Sample.store).1 = inr resp ∧
    response_user_tasks resp =
      serialize_task (Externals := Sample.externals)
        <$> take 20 (today_qs 1 100 Sample.table) ∧
    response_user_tasks resp ≠ [].
Proof.
  pose proof (today_view_contents (H := Sample.externals) Sample.clock
                (Sample.request Sample.alice None []) Sample.store)
    as (Hmem & _ & _ & resp & pagination & counts & Hrun & _ & _ & _ & _ &
        Hrows & Hsome & _).
  split_and!.
  - apply Hmem. split_and!; [by_evaluation|reflexivity|].
    right. split; [by_evaluation|reflexivity].
  - intros Hin. apply Hmem in Hin as (_ & _ & [Hd|[Hd _]]);
      vm_compute in Hd; discriminate.
  - exists resp. split_and!; [exact Hrun|exact Hrows|].
    apply Hsome. by vm_compute.
Defined.

Lemma list_view_page_fallback_witness :
  list_view (H := Sample.externals) AllView Sample.clock
    (Sample.request Sample.alice (Some "abc") []) Sample.store =
  list_view (H := Sample.externals) AllView Sample.clock
    (Sample.request Sample.alice None []) Sample.store ∧
  list_view (H := Sample.externals) TodayView Sample.clock
    (Sample.request Sample.alice (Some "9999") []) Sample.store =
  list_view (H := Sample.externals) TodayView Sample.clock
    (Sample.request Sample.alice None []) Sample.store.
Proof.
  split.
  - destruct (list_view_page_fallback (H := Sample.externals) AllView
                Sample.clock (Sample.request Sample.alice (Some "abc") [])
                Sample.store) as (resp & pg & _ & _ & _ & _ & _ & _ & Hfb).
    destruct (Hfb "abc") as (Heq & _); [reflexivity|by left|].
    exact Heq.
  - destruct (list_view_page_fallback (H := Sample.externals) TodayView
                Sample.clock (Sample.request Sample.alice (Some "9999") [])
                Sample.store) as (resp & pg & _ & _ & _ & _ & _ & _ & Hfb).
    destruct (Hfb "9999") as (Heq & _); [reflexivity| |exact Heq].
    right. exists 9999. split; [reflexivity|]. vm_compute. reflexivity.
Defined.

Lemma bulk_toggle_empty_list_witness :
  ∃ counts,
    multiple_task_complete (H := Sample.externals) Sample.clock
      (Sample.request Sample.alice None [("task_ids", VList [])])
      Sample.store =
    (inr {| body := TasksBody [] counts; status_code := 200 |}, Sample.store).
Proof.
  apply (bulk_toggle_empty_list (H := Sample.externals) Sample.clock
           (Sample.request Sample.alice None [("task_ids", VList [])])
           Sample.store).
  reflexivity.
Defined.

Lemma toggle_complete_flips_witness :
  ∃ resp s',
    task_complete (H := Sample.externals) Sample.clock
      (Sample.request Sample.alice None []) 2 Sample.store = (inr resp, s') ∧
    status_code resp = 200 ∧
    tasks s' =
      (λ x, if decide (pk x = 2)
            then toggled Sample.clock (Sample.task 2 1 "call" 100 false)
            else x) <$> Sample.table.
Proof.
  destruct (toggle_complete_flips (H := Sample.externals) Sample.clock
              (Sample.request Sample.alice None []) Sample.store
              sample_store_wf) as (_ & Hsingle & _).
  apply (Hsingle (Sample.task 2 1 "call" 100 false));
    [by_evaluation|reflexivity].
Defined.

(** Toggling the open task 2 completes it today; toggling the completed
    task 1 reopens it and clears the date; a bulk toggle of both does each
    from its own state, and skips Bob's task 5. *)
Example toggle_runs :
  let s2 := (task_complete (H := Sample.externals) Sample.clock
               (Sample.request Sample.alice None []) 2 Sample.store).2 in
  let s1 := (task_complete (H := Sample.externals) Sample.clock
               (Sample.request Sample.alice None []) 1 Sample.store).2 in
  let sb := (multiple_task_complete (H := Sample.externals) Sample.clock
               (Sample.request Sample.alice None
                  [("task_ids", VList [VInt 1; VInt 2; VInt 5])])
               Sample.store).2 in
  (λ t, (status t, done_date t)) <$> tasks s2 =
    [(true, Some 100); (true, Some 100); (false, None); (false, None);
     (false, None); (false, None)] ∧
  (λ t, (status t, done_date t)) <$> tasks s1 =
    [(false, None); (false, None); (false, None); (false, None);
     (false, None); (false, None)] ∧
  (λ t, (status t, done_date t)) <$> tasks sb =
    [(false, None); (true, Some 100); (false, None); (false, None);
     (false, None); (false, None)].
Proof. split_and!; reflexivity. Qed.

(** Alice sends a due date the parser fails on for her tasks 2 and 3:
    the generic error, and the table as before. *)
Lemma bulk_date_update_unparseable_witness :
  multiple_update_task_dates (H := Sample.externals) Sample.clock
    (Sample.request Sample.alice None
       [("task_ids", VList [VInt 2; VInt 3]); ("due_date", VStr "soon")])
    Sample.store =
  (inr generic_error, Sample.store).
Proof.
  destruct (bulk_date_update_unparseable (H := Sample.externals) Sample.clock
              (Sample.request Sample.alice None
                 [("task_ids", VList [VInt 2; VInt 3]);
                  ("due_date", VStr "soon")])
              Sample.store (VStr "soon"))
    as (resp & Hrun & _ & _ & Hgeneric);
    [reflexivity|discriminate|reflexivity|].
  rewrite Hrun. f_equal. f_equal.
  apply (Hgeneric [VInt 2; VInt 3] [2; 3]); [reflexivity..|].
  vm_compute. discriminate.
Defined.

Lemma update_task_partial_witness :
  ∃ resp s',
    update_task (H := Sample.externals) Sample.clock
      (Sample.request Sample.alice None [("due_date", VStr "soon")]) 2
      Sample.store = (inr resp, s') ∧
    resp = generic_error ∧ s' = Sample.store.
Proof.
  destruct (update_task_partial (H := Sample.externals) Sample.clock
              (Sample.request Sample.alice None [("due_date", VStr "soon")])
              Sample.store (Sample.task 2 1 "call" 100 false)
              sample_store_wf)
    as (resp & s' & Hrun & Hreject & _); [by_evaluation|reflexivity|].
  exists resp, s'. split; [exact Hrun|].
  apply Hreject. exists (VStr "soon"). split_and!; [reflexivity|discriminate|reflexivity].
Defined.

(** An update that carries only new details keeps the title and the due
    date; one that carries a due date that parses changes the due date. *)
Example update_task_runs :
  let s1 := (update_task (H := Sample.externals) Sample.clock
               (Sample.request Sample.alice None
                  [("task_details", VStr "before noon")]) 2
               Sample.store).2 in
  let s2 := (update_task (H := Sample.externals) Sample.clock
               (Sample.request Sample.alice None [("due_date", VStr "101")]) 2
               Sample.store).2 in
  tasks s1 !! 1%nat =
    Some {| pk := 2; created_by := 1; task_title := "call";
            task_details := Some "before noon";
            due_date := datetime_of_date 100; status := false;
            done_date := None; source_routine := None |} ∧
  tasks s2 !! 1%nat = Some (Sample.task 2 1 "call" 101 false).
Proof. split; reflexivity. Qed.

Lemma add_task_title_and_default_date_witness :
  add_task (H := Sample.externals) Sample.clock
    (Sample.request Sample.alice None [("task_details", VStr "no title")])
    Sample.store = (inr generic_error, Sample.store).
Proof.
  apply (add_task_title_and_default_date (H := Sample.externals) Sample.clock
           (Sample.request Sample.alice None
              [("task_details", VStr "no title")]) Sample.store).
  reflexivity.
Defined.

(** A task created without a due date, and one with a due date that does
    not parse, are due today. *)
Example add_task_runs :
  let s1 := (add_task (H := Sample.externals) Sample.clock
               (Sample.request Sample.alice None [("task_title", VStr "new")])
               Sample.store).2 in
  let s2 := (add_task (H := Sample.externals) Sample.clock
               (Sample.request Sample.alice None
                  [("task_title", VStr "new"); ("due_date", VStr "soon")])
               Sample.store).2 in
  tasks s1 = Sample.table ++ [Sample.task 7 1 "new" 100 false] ∧
  tasks s2 = Sample.table ++ [Sample.task 7 1 "new" 100 false].
Proof. split; reflexivity. Qed.

(** Alice updates, toggles or deletes Bob's task 5: the single-task views
    answer 500 with the generic error, not 404, and the bulk delete and the
    bulk toggle answer 200. *)
Lemma other_owner_not_surfaced_as_not_found :
  let request := Sample.request Sample.alice None
                   [("task_ids", VList [VInt 5])] in
  let generic := {| body := ErrorBody "An error occurred";
                    status_code := 500 |} in
  (update_task (H := Sample.externals) Sample.clock request 5
     Sample.store).1 = inr generic ∧
  (delete_task (H := Sample.externals) Sample.clock request 5
     Sample.store).1 = inr generic ∧
  (task_complete (H := Sample.externals) Sample.clock request 5
     Sample.store).1 = inr generic ∧
  (∃ counts,
     (multiple_delete_task (H := Sample.externals) Sample.clock request
        Sample.store).1 =
     inr {| body := MessageBody "Tasks deleted" counts;
            status_code := 200 |}) ∧
  (∃ counts,
     (multiple_task_complete (H := Sample.externals) Sample.clock request
        Sample.store).1 =
     inr {| body := TasksBody [] counts; status_code := 200 |}) ∧
  ¬ (∀ op resp,
       (mutate (H := Sample.externals) op Sample.clock request
               Sample.store).1 = inr resp →
       status_code resp = HTTP_404_NOT_FOUND).
Proof.
  split_and!; try reflexivity; try (eexists; reflexivity).
  intros Hall. by specialize (Hall (Update 5) generic_error eq_refl).
Qed.

Lemma mutation_owner_isolation_witness :
  others 1 (tasks (mutate (H := Sample.externals) (Delete 5) Sample.clock
                     (Sample.request Sample.alice None []) Sample.store).2) =
  others 1 Sample.table.
Proof.
  by destruct (mutation_owner_isolation (H := Sample.externals) (Delete 5)
                 Sample.clock (Sample.request Sample.alice None [])
                 Sample.store sample_store_wf) as (Hothers & _).
Defined.

(** *** Runs of the further properties *)

Lemma list_view_valid_page_witness :
  ∃ resp pagination,
    (list_view (H := Sample.externals) AllView Sample.clock
       (Sample.request Sample.alice (Some "1") []) Sample.store).1 = inr resp ∧
    response_pagination resp = Some pagination ∧
    pagination_page pagination = 1.
Proof.
  destruct (list_view_valid_page (H := Sample.externals) AllView Sample.clock
              (Sample.request Sample.alice (Some "1") []) Sample.store "1" 1)
    as (resp & pagination & Hrun & Hpg & Hn & _);
    [reflexivity|reflexivity|by_evaluation|].
  by exists resp, pagination.
Defined.

Lemma all_tasks_read_only_witness :
  ∃ resp,
    all_tasks (H := Sample.externals)
      (Sample.request Sample.alice None []) Sample.store
    = (inr resp, Sample.store) ∧
    response_user_tasks resp =
      serialize_task (Externals := Sample.externals)
        <$> take 20 (all_qs 1 Sample.table) ∧
    length (response_user_tasks resp) = 5%nat.
Proof.
  pose proof (all_tasks_read_only (H := Sample.externals)
                (Sample.request Sample.alice None []) Sample.store)
    as (_ & _ & _ & (resp & pagination & counts & Hrun & _ & _ & _ & _ &
                     Hrows & _) & _).
  exists resp. split_and!; [exact Hrun|exact Hrows|].
  rewrite Hrows. reflexivity.
Defined.

Lemma next_week_tasks_contents_witness :
  ∃ resp,
    (next_week_tasks (H := Sample.externals) Sample.clock
       (Sample.request Sample.alice None []) Sample.store).1 = inr resp ∧
    response_user_tasks resp =
      serialize_task (Externals := Sample.externals)
        <$> take 20 (next_week_qs 1 100 107 Sample.table) ∧
    length (response_user_tasks resp) = 4%nat.
Proof.
  pose proof (next_week_tasks_contents (H := Sample.externals) Sample.clock
                (Sample.request Sample.alice None []) Sample.store)
    as (_ & _ & _ & _ & resp & pagination & counts & Hrun & _ & _ & _ & _ &
        Hrows & _).
  exists resp. split_and!; [exact Hrun|exact Hrows|].
  rewrite Hrows. reflexivity.
Defined.

(** A user with 45 open tasks, one due on each of 45 successive days:
    three pages. *)
Definition carol : User := {| user_pk := 3; username := "carol" |}.

Definition busy_table : list Tasks :=
  (λ k : nat, Sample.task (Z.of_nat k) 3 "job" (100 + Z.of_nat k) false)
    <$> seq 1 45.

Definition busy_store : @Store Sample.externals :=
  {| tasks := busy_table; next_pk := 46; routines := [] |}.

Definition render_page (n : Z) : string :=
  if decide (n = 1) then "1" else if decide (n = 2) then "2" else "3".

Lemma list_view_pages_show_all_witness :
  let qs := view_qs AllView Sample.clock 3
              (tasks (list_view (H := Sample.externals) AllView Sample.clock
                        (Sample.request carol None []) busy_store).2) in
  let np := num_pages {| object_list := qs; per_page := 20 |} in
  np = 3 ∧
  concat ((λ k : nat,
             rows_shown
               (list_view (H := Sample.externals) AllView Sample.clock
                  (with_page (Sample.request carol None [])
                             (Some (render_page (Z.of_nat k)))) busy_store).1)
          <$> seq 1 (Z.to_nat np)) =
  serialize_task (Externals := Sample.externals) <$> qs.
Proof.
  intros qs np.
  assert (np = 3) as Hnp by (vm_compute; reflexivity).
  split; [exact Hnp|].
  apply (list_view_pages_show_all (H := Sample.externals) AllView Sample.clock
           (Sample.request carol None []) busy_store render_page).
  - by_evaluation.
  - intros n Hn. change (1 ≤ n ≤ np) in Hn. rewrite Hnp in Hn.
    assert (n = 1 ∨ n = 2 ∨ n = 3) as [->|[->| ->]] by lia; reflexivity.
Defined.

Lemma list_view_page_below_one_witness :
  list_view (H := Sample.externals) TodayView Sample.clock
    (Sample.request Sample.alice (Some "0") []) Sample.store =
  list_view (H := Sample.externals) TodayView Sample.clock
    (Sample.request Sample.alice None []) Sample.store.
Proof.
  apply (list_view_page_below_one (H := Sample.externals) TodayView
           Sample.clock (Sample.request Sample.alice (Some "0") [])
           Sample.store "0" 0); [reflexivity|reflexivity|lia].
Defined.

Lemma single_task_views_unknown_id_witness :
  delete_task (H := Sample.externals) Sample.clock
    (Sample.request Sample.alice None []) 5 Sample.store =
  (inr {| body := ErrorBody "An error occurred"; status_code := 500 |},
   Sample.store).
Proof.
  apply (single_task_views_unknown_id (H := Sample.externals) Sample.clock
           (Sample.request Sample.alice None []) 5 Sample.store).
  assert (Forall (λ t, created_by t = 1 → pk t ≠ 5) Sample.table) as Hall
    by by_evaluation.
  rewrite Forall_forall in Hall. exact Hall.
Defined.

Lemma delete_task_removes_witness :
  ∃ counts s' l1 l2,
    delete_task (H := Sample.externals) Sample.clock
      (Sample.request Sample.alice None []) 2 Sample.store =
      (inr {| body := MessageBody "Task deleted" counts;
              status_code := 200 |}, s') ∧
    Sample.table = l1 ++ Sample.task 2 1 "call" 100 false :: l2 ∧
    tasks s' = l1 ++ l2.
Proof.
  destruct (delete_task_removes (H := Sample.externals) Sample.clock
              (Sample.request Sample.alice None []) Sample.store
              (Sample.task 2 1 "call" 100 false) sample_store_wf)
    as (counts & s' & l1 & l2 & Hrun & Hl & Hs' & _);
    [by_evaluation|reflexivity|].
  by exists counts, s', l1, l2.
Defined.

Lemma multiple_delete_task_removes_witness :
  ∃ counts s',
    multiple_delete_task (H := Sample.externals) Sample.clock
      (Sample.request Sample.alice None
         [("task_ids", VList [VInt 2; VInt 5; VInt 2])]) Sample.store =
      (inr {| body := MessageBody "Tasks deleted" counts;
              status_code := 200 |}, s') ∧
    tasks s' `sublist_of` Sample.table.
Proof.
  destruct (multiple_delete_task_removes (H := Sample.externals) Sample.clock
              (Sample.request Sample.alice None
                 [("task_ids", VList [VInt 2; VInt 5; VInt 2])])
              Sample.store (VInt 2) [VInt 5; VInt 2] [2; 5; 2])
    as (counts & s' & Hrun & _ & Hsub & _); [reflexivity..|].
  by exists counts, s'.
Defined.

(** Alice deletes her task 2 and names Bob's task 5: task 2 goes, task 5
    stays. *)
Example multiple_delete_task_run :
  pk <$> tasks (multiple_delete_task (H := Sample.externals) Sample.clock
                  (Sample.request Sample.alice None
                     [("task_ids", VList [VInt 2; VInt 5; VInt 2])])
                  Sample.store).2 = [1; 3; 4; 5; 6].
Proof. reflexivity. Qed.

Lemma bulk_views_ids_as_set_witness :
  multiple_task_complete (H := Sample.externals) Sample.clock
    (Sample.request Sample.alice None
       [("task_ids", VList [VInt 3; VInt 2; VInt 3])]) Sample.store =
  multiple_task_complete (H := Sample.externals) Sample.clock
    (Sample.request Sample.alice None
       [("task_ids", VList [VInt 2; VInt 3])]) Sample.store.
Proof.
  apply (bulk_views_ids_as_set (H := Sample.externals) Sample.clock
           (Sample.request Sample.alice None
              [("task_ids", VList [VInt 2; VInt 3])])
           (Sample.request Sample.alice None
              [("task_ids", VList [VInt 3; VInt 2; VInt 3])])
           Sample.store [VInt 2; VInt 3] [VInt 3; VInt 2; VInt 3]
           [2; 3] [3; 2; 3]);
    [reflexivity|reflexivity|reflexivity|discriminate|discriminate
    |reflexivity|reflexivity|].
  intros k. rewrite !elem_of_cons, !elem_of_nil. tauto.
Defined.

Lemma multiple_update_task_dates_sets_witness :
  ∃ counts s',
    multiple_update_task_dates (H := Sample.externals) Sample.clock
      (Sample.request Sample.alice None
         [("task_ids", VList [VInt 2; VInt 5]); ("due_date", VStr "101")])
      Sample.store =
    (inr {| body := TasksBody
              (serialize_task <$> [Sample.task 2 1 "call" 101 false]) counts;
            status_code := 200 |}, s') ∧
    tasks s' =
      (λ x, if decide (pk x ∈ [2; 5] ∧ created_by x = 1)
            then dated (datetime_of_date 101) x else x) <$> Sample.table.
Proof.
  destruct (multiple_update_task_dates_sets (H := Sample.externals)
              Sample.clock
              (Sample.request Sample.alice None
                 [("task_ids", VList [VInt 2; VInt 5]);
                  ("due_date", VStr "101")])
              Sample.store (VInt 2) [VInt 5] [2; 5] sample_store_wf)
    as (_ & Hset); [reflexivity|reflexivity|by vm_compute|].
  destruct (Hset (datetime_of_date 101)) as (counts & s' & Hrun & Htasks & _);
    [by vm_compute|reflexivity|].
  exists counts, s'. split; [exact Hrun|exact Htasks].
Defined.

Lemma update_task_idempotent_witness :
  let request := Sample.request Sample.alice None
                   [("task_title", VStr "call back"); ("due_date", VStr "102")] in
  update_task (H := Sample.externals) Sample.clock request 2
    (update_task (H := Sample.externals) Sample.clock request 2
       Sample.store).2 =
  update_task (H := Sample.externals) Sample.clock request 2 Sample.store.
Proof.
  apply (update_task_idempotent (H := Sample.externals) Sample.clock
           (Sample.request Sample.alice None
              [("task_title", VStr "call back"); ("due_date", VStr "102")])
           Sample.store (Sample.task 2 1 "call" 100 false) sample_store_wf);
    [by_evaluation|reflexivity].
Defined.

Lemma task_complete_twice_witness :
  (task_complete (H := Sample.externals) Sample.clock
     (Sample.request Sample.alice None []) 2
     (task_complete (H := Sample.externals) Sample.clock
        (Sample.request Sample.alice None []) 2 Sample.store).2).2 =
  Sample.store.
Proof.
  destruct (task_complete_twice (H := Sample.externals) Sample.clock
              (Sample.request Sample.alice None []) Sample.store
              (Sample.task 2 1 "call" 100 false) sample_store_wf)
    as (_ & _ & Hback & _); [by_evaluation|reflexivity|].
  by apply Hback.
Defined.

Lemma sample_table_completion_dated :
  Forall completion_dated Sample.table.
Proof.
  unfold Sample.table.
  repeat (apply Forall_cons; split;
          [unfold completion_dated; simpl; by split|]).
  by apply Forall_nil.
Qed.

Lemma completion_date_invariant_witness :
  Forall completion_dated
    (tasks (mutate (H := Sample.externals) BulkToggleComplete Sample.clock
              (Sample.request Sample.alice None
                 [("task_ids", VList [VInt 1; VInt 2])]) Sample.store).2).
Proof.
  by destruct (completion_date_invariant (H := Sample.externals) Sample.clock
                 (Sample.request Sample.alice None
                    [("task_ids", VList [VInt 1; VInt 2])]) Sample.store
                 sample_table_completion_dated) as [Hmut _].
Defined.

Lemma add_task_shows_in_all_view_witness :
  ∃ t,
    tasks (add_task (H := Sample.externals) Sample.clock
             (Sample.request Sample.alice None [("task_title", VStr "new")])
             Sample.store).2 = Sample.table ++ [t] ∧
    t ∈ all_qs 1 (Sample.table ++ [t]).
Proof.
  destruct (add_task_shows_in_all_view (H := Sample.externals) Sample.clock
              (Sample.request Sample.alice None [("task_title", VStr "new")])
              Sample.store "new")
    as (t & _ & _ & _ & _ & Hs' & Hin & _); [reflexivity|].
  exists t. split; [exact Hs'|]. simpl in Hin. by rewrite Hs' in Hin.
Defined.

Lemma task_complete_moves_one_count_witness :
  ∃ before after c0 c1,
    (all_tasks (H := Sample.externals)
       (Sample.request Sample.alice None []) Sample.store).1 = inr before ∧
    (all_tasks (H := Sample.externals) (Sample.request Sample.alice None [])
       (task_complete (H := Sample.externals) Sample.clock
          (Sample.request Sample.alice None []) 2 Sample.store).2).1 =
      inr after ∧
    response_counts before = Some c0 ∧ response_counts after = Some c1 ∧
    completed_tasks_count c1 = completed_tasks_count c0 + 1 ∧
    pending_tasks c1 = pending_tasks c0 - 1.
Proof.
  destruct (task_complete_moves_one_count (H := Sample.externals) Sample.clock
              (Sample.request Sample.alice None []) Sample.store
              (Sample.task 2 1 "call" 100 false) sample_store_wf)
    as (before & after & c0 & c1 & Hb & Ha & Hc0 & Hc1 & _ & Hopen & _);
    [by_evaluation|reflexivity|].
  exists before, after, c0, c1. destruct Hopen as [? ?]; [reflexivity|].
  by split_and!.
Defined.

(** The middleware on an API path, on the bare prefix without its slash,
    and on another path. *)
Example middleware_runs :
  let self := {| get_response := λ request, (attributes request, request) |} in
  (call self {| path := "/api/tasks/"; attributes := ∅ |}).1
    !! "_dont_enforce_csrf_checks" = Some (VBool true) ∧
  (call self {| path := "/api"; attributes := ∅ |}).1
    !! "_dont_enforce_csrf_checks" = None ∧
  (call self {| path := "/admin/api/"; attributes := ∅ |}).1
    !! "_dont_enforce_csrf_checks" = None.
Proof. split_and!; reflexivity. Qed.
